(** * manga-panel-processor: border line location and panel reading order

    A shallow embedding of

    - [image_panel_border_cleaner/border.py]: [_find_best_border_line] and
      the control flow of [remove_border];
    - [manga_panel_processor/layout.py]: [sort_panels_by_column_then_row].

    Python integers are [Z].  Python floats are a set of operations
    ([FloatOps]) with the order laws that rounded arithmetic keeps
    ([PyFloat]); the general statements hold for every such arithmetic.
    The exact rationals [Q] satisfy the laws and serve to apply the
    statements to sample inputs; binary64 ([B64Ops], the machine
    arithmetic of Python) serves to run the functions as Python does,
    and the places where rounding changes a result are recorded.  Where
    Python mixes an integer with a float the integer is converted first
    ([of_int]).  Exceptions are values of [result]. *)

From Stdlib Require Import ZArith QArith List Bool Lia Permutation Sorted.
From Stdlib Require PrimFloat FloatOps SpecFloat.
Import ListNotations.
Open Scope Z_scope.

(** ** Exceptions *)

Inductive exn : Type := IndexError | ValueError.

Inductive result (A : Type) : Type :=
| Ok (a : A)
| Raise (e : exn).
Arguments Ok {A} a.
Arguments Raise {A} e.

Definition bind {A B} (r : result A) (k : A -> result B) : result B :=
  match r with
  | Ok a => k a
  | Raise e => Raise e
  end.

Notation "x <- r ;; k" := (bind r (fun x => k))
  (at level 61, r at next level, right associativity).

(** ** Float arithmetic

    The operations the two modules apply to floats ([FloatOps]), and the
    order laws the proofs rely on ([PyFloat]): [<=] is a total preorder,
    the operations are monotone and preserve signs.  No NaN arises in
    either module (no division by zero is reachable), so [<] is the
    complement of [>=].  Integers are taken within the range of floats
    ([in_float_range] for the panels of a page): the [OverflowError] of
    a conversion is outside the model. *)

Class FloatOps : Type := {
  float : Type;
  of_int : Z -> float;
  lit_0_6 : float;
  fadd : float -> float -> float;
  fsub : float -> float -> float;
  fmul : float -> float -> float;
  fdiv : float -> float -> float;
  ftrunc : float -> Z;
  fle : float -> float -> bool
}.

Class PyFloat (FO : FloatOps) : Type := {
  fle_total : forall a b, fle a b = true \/ fle b a = true;
  fle_trans : forall a b c, fle a b = true -> fle b c = true -> fle a c = true;
  of_int_mono : forall a b, a <= b -> fle (of_int a) (of_int b) = true;
  of_int_pos : forall a, 0 < a -> fle (of_int a) (of_int 0) = false;
  lit_0_6_nonneg : fle (of_int 0) lit_0_6 = true;
  fadd_nonneg : forall a b,
      fle (of_int 0) a = true -> fle (of_int 0) b = true ->
      fle (of_int 0) (fadd a b) = true;
  fmul_nonneg : forall a b,
      fle (of_int 0) a = true -> fle (of_int 0) b = true ->
      fle (of_int 0) (fmul a b) = true;
  fmul_nonpos_nonneg : forall a b,
      fle a (of_int 0) = true -> fle (of_int 0) b = true ->
      fle (fmul a b) (of_int 0) = true;
  fdiv_nonneg : forall a b,
      fle (of_int 0) a = true -> fle b (of_int 0) = false ->
      fle (of_int 0) (fdiv a b) = true;
  fadd_mono_r : forall c a b,
      fle a b = true -> fle (fadd c a) (fadd c b) = true;
  fmul_mono_r : forall c a b,
      fle (of_int 0) c = true -> fle a b = true ->
      fle (fmul c a) (fmul c b) = true;
  fdiv_mono_l : forall c a b,
      fle c (of_int 0) = false -> fle a b = true ->
      fle (fdiv a c) (fdiv b c) = true
}.

Section FloatOrder.
Context {FO : FloatOps}.

Definition fge (a b : float) : bool := fle b a.
Definition flt (a b : float) : bool := negb (fle b a).
Definition fgt (a b : float) : bool := flt b a.
Definition feq (a b : float) : bool := fle a b && fle b a.

End FloatOrder.

(** The exact rationals, which satisfy the laws. *)

#[export] Instance QOps : FloatOps := {|
  float := Q;
  of_int := inject_Z;
  lit_0_6 := (6 # 10)%Q;
  fadd := Qplus;
  fsub := Qminus;
  fmul := Qmult;
  fdiv := Qdiv;
  ftrunc := fun q => Z.quot (Qnum q) (Zpos (Qden q));
  fle := Qle_bool
|}.

#[export] Instance QFloat : PyFloat QOps.
Proof.
  assert (Qle_bool_false : forall a b : Q, Qle_bool a b = false -> (b < a)%Q)
    by (intros a b H; apply Qnot_le_lt; intros L;
        apply Qle_bool_iff in L; congruence).
  constructor; simpl.
  - intros a b. destruct (Qlt_le_dec b a) as [L|L].
    + right. apply Qle_bool_iff. now apply Qlt_le_weak.
    + left. now apply Qle_bool_iff.
  - intros a b c H1 H2. apply Qle_bool_iff.
    apply Qle_bool_iff in H1, H2. now apply Qle_trans with b.
  - intros a b H. apply Qle_bool_iff. now rewrite <- Zle_Qle.
  - intros a H. destruct (Qle_bool (inject_Z a) (inject_Z 0)) eqn:E; [|reflexivity].
    apply Qle_bool_iff in E. rewrite <- Zle_Qle in E. lia.
  - reflexivity.
  - intros a b Ha Hb. apply Qle_bool_iff.
    apply Qle_bool_iff in Ha, Hb.
    change (inject_Z 0) with 0%Q in *.
    replace 0%Q with (0 + 0)%Q by reflexivity.
    now apply Qplus_le_compat.
  - intros a b Ha Hb. apply Qle_bool_iff.
    apply Qle_bool_iff in Ha, Hb.
    now apply Qmult_le_0_compat.
  - intros a b Ha Hb. apply Qle_bool_iff.
    apply Qle_bool_iff in Ha, Hb.
    change (inject_Z 0) with 0%Q in *.
    setoid_replace 0%Q with (0 * b)%Q by ring.
    now apply Qmult_le_compat_r.
  - intros a b Ha Hb. apply Qle_bool_iff.
    apply Qle_bool_iff in Ha. apply Qle_bool_false in Hb.
    change (inject_Z 0) with 0%Q in *.
    apply Qle_shift_div_l; [assumption|].
    now setoid_replace (0 * b)%Q with 0%Q by ring.
  - intros c a b H. apply Qle_bool_iff. apply Qle_bool_iff in H.
    apply Qplus_le_compat; [apply Qle_refl | assumption].
  - intros c a b Hc H. apply Qle_bool_iff.
    apply Qle_bool_iff in Hc, H.
    change (inject_Z 0) with 0%Q in *.
    rewrite (Qmult_comm c a), (Qmult_comm c b).
    now apply Qmult_le_compat_r.
  - intros c a b Hc H. apply Qle_bool_iff.
    apply Qle_bool_false in Hc. apply Qle_bool_iff in H.
    change (inject_Z 0) with 0%Q in *.
    unfold Qdiv. apply Qmult_le_compat_r; [assumption|].
    apply Qlt_le_weak. now apply Qinv_lt_0_compat.
Qed.

(** Binary64, the floats of Python: every operation is rounded to the
    nearest float, ties to even.  [0.6] is the float nearest to 3/5,
    which is what the correctly rounded division gives; [int(x)]
    truncates towards zero.  The laws of [PyFloat] hold of it away from
    NaN, which no operation of the two modules produces; they are not
    stated as an instance, NaN being a value of the type. *)

Definition b64_of_int (z : Z) : PrimFloat.float :=
  FloatOps.SF2Prim (SpecFloat.binary_normalize 53 1024 z 0 false).

Definition b64_trunc (x : PrimFloat.float) : Z :=
  match FloatOps.Prim2SF x with
  | SpecFloat.S754_finite s m e =>
      let v := if 0 <=? e then Z.pos m * 2 ^ e else Z.pos m / 2 ^ (- e) in
      if s then - v else v
  | _ => 0
  end.

Definition B64Ops : FloatOps := {|
  float := PrimFloat.float;
  of_int := b64_of_int;
  lit_0_6 := PrimFloat.div (b64_of_int 3) (b64_of_int 5);
  fadd := PrimFloat.add;
  fsub := PrimFloat.sub;
  fmul := PrimFloat.mul;
  fdiv := PrimFloat.div;
  ftrunc := b64_trunc;
  fle := PrimFloat.leb
|}.

(** ** [range] objects

    [range(start, stop, step)] with Python's element count; the
    constructor refuses [step = 0], for which the count below is 0. *)

Record py_range : Type := range { start : Z; stop : Z; step : Z }.

Definition range_len (r : py_range) : Z :=
  if (0 <? step r) && (start r <? stop r)
  then (stop r - start r - 1) / step r + 1
  else if (step r <? 0) && (stop r <? start r)
  then (start r - stop r - 1) / (- step r) + 1
  else 0.

Definition range_elems (r : py_range) : list Z :=
  map (fun k => start r + Z.of_nat k * step r)
      (seq 0 (Z.to_nat (range_len r))).

(** ** Two-dimensional arrays

    A numpy array of shape [(shape0, shape1)] with its element
    accessor.  An integer index [i] into a dimension of size [n] is
    valid for [-n <= i < n], negative ones counting from the end;
    anything else raises [IndexError]. *)

Record ndarray : Type := mk_ndarray {
  shape0 : nat;
  shape1 : nat;
  px : nat -> nat -> Z
}.

Definition np_index (n : nat) (i : Z) : result nat :=
  if (0 <=? i) && (i <? Z.of_nat n) then Ok (Z.to_nat i)
  else if (- Z.of_nat n <=? i) && (i <? 0) then Ok (Z.to_nat (i + Z.of_nat n))
  else Raise IndexError.

Definition row (m : ndarray) (k : nat) : list Z :=
  map (px m k) (seq 0 (shape1 m)).

Definition col (m : ndarray) (k : nat) : list Z :=
  map (fun r => px m r k) (seq 0 (shape0 m)).

Definition count_nonzero (l : list Z) : Z :=
  Z.of_nat (length (filter (fun v => negb (v =? 0)) l)).

(** [m[y0:y1, x0:x1]] for non-negative bounds, clipped to the array
    like numpy does. *)
Definition np_slice (m : ndarray) (y0 y1 x0 x1 : nat) : ndarray :=
  let r0 := Nat.min y0 (shape0 m) in
  let r1 := Nat.min y1 (shape0 m) in
  let c0 := Nat.min x0 (shape1 m) in
  let c1 := Nat.min x1 (shape1 m) in
  {| shape0 := r1 - r0; shape1 := c1 - c0;
     px := fun r c => px m (r0 + r) (c0 + c) |}.

(** ** border.py *)

Section Border.
Context {FO : FloatOps} {PF : PyFloat FO}.

(** [np.count_nonzero(roi_mask[i, :])] for [axis == 1],
    [np.count_nonzero(roi_mask[:, i])] otherwise. *)
Definition continuity (roi_mask : ndarray) (axis : Z) (i : Z) : result Z :=
  if axis =? 1
  then k <- np_index (shape0 roi_mask) i ;; Ok (count_nonzero (row roi_mask k))
  else k <- np_index (shape1 roi_mask) i ;; Ok (count_nonzero (col roi_mask k)).

Definition total_span (scan_range : py_range) : Z :=
  Z.abs (stop scan_range - start scan_range).

(** The score of line [i] given its continuity. *)
Definition score (scan_range : py_range) (continuity_score : Z) (i : Z) : float :=
  let progress := Z.abs (i - start scan_range) in
  let position_weight := fdiv (of_int progress) (of_int (total_span scan_range)) in
  fmul (of_int continuity_score) (fadd (of_int 1) position_weight).

Definition score_at (roi_mask : ndarray) (axis : Z) (scan_range : py_range)
  (i : Z) : result float :=
  c <- continuity roi_mask axis i ;; Ok (score scan_range c i).

(** One iteration of the loop over the pair [(best_index, max_score)]. *)
Definition scan_step (roi_mask : ndarray) (axis : Z) (scan_range : py_range)
  (st : Z * float) (i : Z) : result (Z * float) :=
  sc <- score_at roi_mask axis scan_range i ;;
  if fge sc (snd st) then Ok (i, sc) else Ok st.

Fixpoint scan_loop (roi_mask : ndarray) (axis : Z) (scan_range : py_range)
  (l : list Z) (st : Z * float) : result (Z * float) :=
  match l with
  | [] => Ok st
  | i :: l' =>
      st' <- scan_step roi_mask axis scan_range st i ;;
      scan_loop roi_mask axis scan_range l' st'
  end.

Definition _find_best_border_line (roi_mask : ndarray) (axis : Z)
  (scan_range : py_range) : result Z :=
  let best_index := start scan_range in
  let max_score := of_int (-1) in
  if total_span scan_range =? 0 then Ok best_index
  else
    st <- scan_loop roi_mask axis scan_range (range_elems scan_range)
            (best_index, max_score) ;;
    Ok (fst st).

End Border.

(** ** Python built-ins used by both modules *)

Section Builtins.
Context {FO : FloatOps} {PF : PyFloat FO}.

(** [max(l, key=key)] on the non-empty list [best :: l]: the first
    maximal element is kept, a later one replaces it only when its key
    is strictly greater. *)
Fixpoint max_by {A : Type} (key : A -> float) (best : A) (l : list A) : A :=
  match l with
  | [] => best
  | a :: l' => max_by key (if fgt (key a) (key best) then a else best) l'
  end.

(** [l[i]] for a non-negative index. *)
Definition list_get {A : Type} (l : list A) (i : nat) : result A :=
  match nth_error l i with
  | Some a => Ok a
  | None => Raise IndexError
  end.

End Builtins.

(** [sorted(l, key=key)]: the stable sort, which compares keys with [<]
    only.  Stability fixes the result, so insertion stands for Timsort. *)
Section Sorted.
Context {A K : Type} (ltb : K -> K -> bool) (key : A -> K).

Fixpoint insert_by (a : A) (l : list A) : list A :=
  match l with
  | [] => [a]
  | b :: l' => if ltb (key b) (key a) then b :: insert_by a l' else a :: b :: l'
  end.

Definition sorted_by (l : list A) : list A := fold_right insert_by [] l.

End Sorted.

(** ** border.py: [remove_border]

    The OpenCV calls are collaborators of the function and stay
    abstract: images and contours are opaque, only the shape of an image
    and the bounding rectangle of a contour are observed. *)

Section RemoveBorder.
Context {FO : FloatOps} {PF : PyFloat FO}.

Variable image : Type.
Variable contour : Type.
(** [img.shape[0]], [img.shape[1]]. *)
Variable img_shape : image -> nat * nat.
(** [cv2.copyMakeBorder(img, p, p, p, p, BORDER_CONSTANT, white)]. *)
Variable copyMakeBorder : image -> nat -> image.
(** [cvtColor], [threshold(gray, 240, 255, THRESH_BINARY_INV)] and
    [findContours(thresh, RETR_EXTERNAL, CHAIN_APPROX_SIMPLE)]. *)
Variable findContours : image -> list contour.
Variable contourArea : contour -> float.
(** [cv2.boundingRect]: [(x, y, w, h)], none of them negative. *)
Variable boundingRect : contour -> Z * Z * Z * Z.
(** The filled contour minus its erosion ([iterations] times, 3x3
    kernel), thinned to one pixel, on the canvas of the padded image. *)
Variable skeleton_of : image -> contour -> nat -> ndarray.
(** [img[y1:y2, x1:x2]]. *)
Variable img_slice : image -> Z -> Z -> Z -> Z -> image.

(** Steps 2 to 4 up to the crop coordinates
    [(final_x1, final_y1, final_x2, final_y2)]. *)
Definition crop_coordinates (padded_image : image) (largest_contour : contour)
  (search_zone_ratio : float) (padding : Z) : result (Z * Z * Z * Z) :=
  let '(x, y, w, h) := boundingRect largest_contour in
  let erosion_iterations := 5%nat in
  let skeleton := skeleton_of padded_image largest_contour erosion_iterations in
  let roi_mask :=
    np_slice skeleton (Z.to_nat y) (Z.to_nat (y + h)) (Z.to_nat x) (Z.to_nat (x + w)) in
  let top_search_end := ftrunc (fmul (of_int h) search_zone_ratio) in
  let bottom_search_start := h - top_search_end in
  let left_search_end := ftrunc (fmul (of_int w) search_zone_ratio) in
  let right_search_start := w - left_search_end in
  let top_range := range top_search_end (-1) (-1) in
  let bottom_range := range bottom_search_start h 1 in
  let left_range := range left_search_end (-1) (-1) in
  let right_range := range right_search_start w 1 in
  best_top_y <- _find_best_border_line roi_mask 1 top_range ;;
  best_bottom_y <- _find_best_border_line roi_mask 1 bottom_range ;;
  best_left_x <- _find_best_border_line roi_mask 0 left_range ;;
  best_right_x <- _find_best_border_line roi_mask 0 right_range ;;
  let final_x1 := x + best_left_x + padding in
  let final_y1 := y + best_top_y + padding in
  let final_x2 := x + best_right_x - padding in
  let final_y2 := y + best_bottom_y - padding in
  Ok (final_x1, final_y1, final_x2, final_y2).

(** [panel_image] is [None] for Python's [None]. *)
Definition remove_border (panel_image : option image)
  (search_zone_ratio : float) (padding : Z) : result (option image) :=
  match panel_image with
  | None => Ok panel_image
  | Some img =>
      if (fst (img_shape img) <? 30)%nat || (snd (img_shape img) <? 30)%nat
      then Ok panel_image
      else
        let pad_size := 15%nat in
        let padded_image := copyMakeBorder img pad_size in
        match findContours padded_image with
        | [] => Ok panel_image
        | c :: contours =>
            let largest_contour := max_by contourArea c contours in
            coords <- crop_coordinates padded_image largest_contour
                        search_zone_ratio padding ;;
            let '(final_x1, final_y1, final_x2, final_y2) := coords in
            if (final_x1 >=? final_x2) || (final_y1 >=? final_y2)
            then Ok panel_image
            else
              let cropped := img_slice padded_image final_y1 final_y2 final_x1 final_x2 in
              if (fst (img_shape cropped) <? 10)%nat || (snd (img_shape cropped) <? 10)%nat
              then Ok panel_image
              else Ok (Some cropped)
        end
  end.

(** The early exits of [remove_border]. *)
Inductive early_exit (search_zone_ratio : float) (padding : Z) :
  option image -> Prop :=
| exit_absent : early_exit search_zone_ratio padding None
| exit_too_small img :
    (fst (img_shape img) < 30)%nat \/ (snd (img_shape img) < 30)%nat ->
    early_exit search_zone_ratio padding (Some img)
| exit_no_contour img :
    findContours (copyMakeBorder img 15) = [] ->
    early_exit search_zone_ratio padding (Some img)
| exit_degenerate img c contours x1 y1 x2 y2 :
    findContours (copyMakeBorder img 15) = c :: contours ->
    crop_coordinates (copyMakeBorder img 15) (max_by contourArea c contours)
      search_zone_ratio padding = Ok (x1, y1, x2, y2) ->
    x1 >= x2 \/ y1 >= y2 ->
    early_exit search_zone_ratio padding (Some img)
| exit_tiny_crop img c contours x1 y1 x2 y2 :
    findContours (copyMakeBorder img 15) = c :: contours ->
    crop_coordinates (copyMakeBorder img 15) (max_by contourArea c contours)
      search_zone_ratio padding = Ok (x1, y1, x2, y2) ->
    (fst (img_shape (img_slice (copyMakeBorder img 15) y1 y2 x1 x2)) < 10)%nat \/
    (snd (img_shape (img_slice (copyMakeBorder img 15) y1 y2 x1 x2)) < 10)%nat ->
    early_exit search_zone_ratio padding (Some img).

End RemoveBorder.

(** ** layout.py *)

(** A caller's item: the tuple [(x, y, w, h)], or a contour, an
    [np.ndarray] of points of which [cv2.boundingRect] gives
    [(x, y, w, h)].  [item_id] stands for the identity of the Python
    object. *)
Record item : Type := new_item {
  item_id : nat;
  item_is_array : bool;
  item_x : Z;
  item_y : Z;
  item_w : Z;
  item_h : Z
}.

Definition mk_item (id : nat) (x y w h : Z) : item := new_item id false x y w h.
Definition mk_contour (id : nat) (x y w h : Z) : item := new_item id true x y w h.

(** [==] on two tuples [(x, y, w, h)]. *)
Definition item_eqb (a b : item) : bool :=
  (item_x a =? item_x b) && (item_y a =? item_y b) &&
  (item_w a =? item_w b) && (item_h a =? item_h b).

(** The comparison of two items inside a tuple comparison: the same
    object is equal to itself without [==] being called; [==] on two
    tuples compares their fields; [==] with an array yields an array,
    which has no truth value ([ValueError]), or is refused for the
    shapes ([ValueError] as well, since NumPy 1.25). *)
Definition item_eq (a b : item) : result bool :=
  if (item_id a =? item_id b)%nat then Ok true
  else if item_is_array a || item_is_array b then Raise ValueError
  else Ok (item_eqb a b).

(** [[d for d in l if p d]] for a test that may raise. *)
Fixpoint filter_with {A : Type} (p : A -> result bool) (l : list A)
  : result (list A) :=
  match l with
  | [] => Ok []
  | a :: l' =>
      keep <- p a ;;
      rest <- filter_with p l' ;;
      Ok (if keep then a :: rest else rest)
  end.

Section Layout.
Context {FO : FloatOps} {PF : PyFloat FO}.

(** The tuple [(item, x_center, y_top, x, y, w, h)] kept per panel;
    [d[0]], [d[1]], [d[2]] and [d[5]] are [d_item], [d_x_center],
    [d_y_top] and [d_w]. *)
Record datum : Type := mk_datum {
  d_item : item;
  d_x_center : float;
  d_y_top : Z;
  d_x : Z;
  d_y : Z;
  d_w : Z;
  d_h : Z
}.

(** [a == b] on two such tuples: the items first, then the numbers. *)
Definition datum_eq (a b : datum) : result bool :=
  same_item <- item_eq (d_item a) (d_item b) ;;
  Ok (same_item && feq (d_x_center a) (d_x_center b) &&
      (d_y_top a =? d_y_top b) && (d_x a =? d_x b) && (d_y a =? d_y b) &&
      (d_w a =? d_w b) && (d_h a =? d_h b)).

(** [d in l]: the elements of [l] are compared with [d] one after the
    other until one is equal.  The identity test that precedes each
    [==] is covered by [item_eq]: a tuple that is [d] itself holds the
    same item and the same numbers. *)
Fixpoint py_in (d : datum) (l : list datum) : result bool :=
  match l with
  | [] => Ok false
  | e :: l' =>
      equal <- datum_eq e d ;;
      if equal then Ok true else py_in d l'
  end.

(** Step 1: one tuple per item, and the full width. *)
Definition datum_of (it : item) : datum :=
  let x := item_x it in
  let y := item_y it in
  let w := item_w it in
  let h := item_h it in
  mk_datum it (fadd (of_int x) (fdiv (of_int w) (of_int 2))) y x y w h.

Definition gather (items : list item) : list datum := map datum_of items.

Definition max_x2_of (items : list item) : Z :=
  fold_left (fun max_x2 it => Z.max max_x2 (item_x it + item_w it)) items 0.

(** Step 2: [(remaining, spanning)]. *)
Definition is_spanning (full_width : Z) (d : datum) : bool :=
  fge (of_int (d_w d)) (fmul (of_int full_width) lit_0_6).

Definition separate_spanning (data : list datum) (full_width : Z)
  : result (list datum * list datum) :=
  let spanning := filter (is_spanning full_width) data in
  remaining <- filter_with (fun d => found <- py_in d spanning ;; Ok (negb found))
                 data ;;
  if (length remaining <? 2)%nat then Ok (data, []) else Ok (remaining, spanning).

(** Step 3. *)
Definition gaps_of (x_centers : list float) : list (float * nat) :=
  map (fun i => (fsub (nth (i + 1) x_centers (of_int 0))
                      (nth i x_centers (of_int 0)), i))
      (seq 0 (length x_centers - 1)).

Definition split_idx_of (gaps : list (float * nat)) : nat :=
  match gaps with
  | [] => 0%nat
  | g :: gaps' => snd (max_by fst g gaps')
  end.

Definition split_x_of (x_centers : list float) : result float :=
  let gaps := gaps_of x_centers in
  let split_idx := split_idx_of gaps in
  a <- list_get x_centers split_idx ;;
  b <- list_get x_centers (split_idx + 1) ;;
  Ok (fdiv (fadd a b) (of_int 2)).

(** Steps 4 to 6. *)
Definition left_group_of (remaining : list datum) (split_x : float) : list datum :=
  filter (fun d => flt (d_x_center d) split_x) remaining.

Definition right_group_of (remaining : list datum) (split_x : float) : list datum :=
  filter (fun d => fge (d_x_center d) split_x) remaining.

Definition columns_of (remaining : list datum) (split_x : float) (rtl_order : bool)
  : list (list datum) :=
  let left_group := left_group_of remaining split_x in
  let right_group := right_group_of remaining split_x in
  if negb rtl_order then [left_group; right_group] else [right_group; left_group].

Definition non_spanning_of (columns : list (list datum)) : list datum :=
  flat_map (sorted_by Z.ltb d_y_top) columns.

(** Step 8: the merge loop on [non_spanning[i:]] and
    [spanning_sorted[j:]], with the leftovers appended at its end. *)
Fixpoint merge_by_y_top (non_spanning : list datum) : list datum -> list item :=
  match non_spanning with
  | [] => fun spanning_sorted => map d_item [] ++ map d_item spanning_sorted
  | n :: non_spanning' =>
      fix merge_spanning (spanning_sorted : list datum) : list item :=
        match spanning_sorted with
        | [] => map d_item (n :: non_spanning') ++ map d_item []
        | s :: spanning_sorted' =>
            if d_y_top s <? d_y_top n
            then d_item s :: merge_spanning spanning_sorted'
            else d_item n :: merge_by_y_top non_spanning' (s :: spanning_sorted')
        end
  end.

Definition sort_panels_by_column_then_row (items : list item) (rtl_order : bool)
  : result (list item) :=
  match items with
  | [] => Ok []
  | _ =>
      let data := gather items in
      let full_width := max_x2_of items in
      separated <- separate_spanning data full_width ;;
      let '(remaining0, spanning) := separated in
      let remaining := sorted_by flt d_x_center remaining0 in
      let x_centers := map d_x_center remaining in
      split_x <- split_x_of x_centers ;;
      let columns := columns_of remaining split_x rtl_order in
      let non_spanning := non_spanning_of columns in
      let spanning_sorted := sorted_by Z.ltb d_y_top spanning in
      Ok (merge_by_y_top non_spanning spanning_sorted)
  end.

End Layout.

(** ** Vocabulary of the statements *)

(** The size of the dimension that [_find_best_border_line] indexes. *)
Definition scan_dim (roi_mask : ndarray) (axis : Z) : nat :=
  if axis =? 1 then shape0 roi_mask else shape1 roi_mask.

(** Every scanned index is a valid index of that dimension. *)
Definition in_bounds (roi_mask : ndarray) (axis : Z) (scan_range : py_range) : Prop :=
  forall i, In i (range_elems scan_range) ->
    - Z.of_nat (scan_dim roi_mask axis) <= i < Z.of_nat (scan_dim roi_mask axis).

(** The scan runs from [start] in the direction of [stop]. *)
Definition towards_stop (scan_range : py_range) : Prop :=
  Z.sgn (step scan_range) = Z.sgn (stop scan_range - start scan_range).

(** Line [i] of a dimension of [n] lines, a negative [i] counting from
    the end. *)
Definition line_of (n : nat) (i : Z) : nat :=
  Z.to_nat (if i <? 0 then i + Z.of_nat n else i).

(** The number of foreground (non-zero) pixels on the full line [i]
    orthogonal to the scan: row [i] for [axis = 1], column [i]
    otherwise. *)
Definition foreground_count (m : ndarray) (axis : Z) (i : Z) : Z :=
  if axis =? 1
  then Z.of_nat (length (filter (fun c => negb (px m (line_of (shape0 m) i) c =? 0))
                           (seq 0 (shape1 m))))
  else Z.of_nat (length (filter (fun r => negb (px m r (line_of (shape1 m) i) =? 0))
                           (seq 0 (shape0 m)))).

Definition all_foreground (m : ndarray) : Prop :=
  forall r c, (r < shape0 m)%nat -> (c < shape1 m)%nat -> px m r c <> 0.

Definition all_background (m : ndarray) : Prop :=
  forall r c, (r < shape0 m)%nat -> (c < shape1 m)%nat -> px m r c = 0.

(** Ascending order on an integer key. *)
Definition key_le {A : Type} (key : A -> Z) (a b : A) : Prop := key a <= key b.

(** The largest [x + w] of a non-empty list of panels. *)
Definition page_width (items : list item) : Z :=
  match items with
  | [] => 0
  | it :: items' =>
      fold_left Z.max (map (fun it' => item_x it' + item_w it') items')
        (item_x it + item_w it)
  end.

(** The coordinates of the panels convert to floats as they are: [x],
    [w] and [x + w] are integers that binary64 holds exactly, so that
    neither [x + w / 2] nor [full_width * 0.6] raises [OverflowError]
    and a comparison of an integer with a float is the comparison of
    two floats. *)
Definition in_float_range (items : list item) : Prop :=
  forall it, In it items ->
    Z.abs (item_x it) < 2 ^ 52 /\ Z.abs (item_w it) < 2 ^ 52.

Section LayoutVocabulary.
Context {FO : FloatOps} {PF : PyFloat FO}.

(** The [x_center] the sort derives for an item. *)
Definition x_center (it : item) : float := d_x_center (datum_of it).

(** The spanning test against the page width. *)
Definition is_wide (items : list item) (d : datum) : bool :=
  fge (of_int (d_w d)) (fmul (of_int (page_width items)) lit_0_6).

End LayoutVocabulary.

Section ArgMax.
Context {FO : FloatOps} {PF : PyFloat FO}.

(** The loop body and the loop of [_find_best_border_line] over a total
    score function. *)
Definition keep_best (sc : Z -> float) (st : Z * float) (i : Z) : Z * float :=
  if fge (sc i) (snd st) then (i, sc i) else st.

Definition argmax_last (sc : Z -> float) (l : list Z) (st : Z * float) : Z * float :=
  fold_left (keep_best sc) l st.

(** The total score function read off [score_at]. *)
Definition score_or_zero (roi_mask : ndarray) (axis : Z) (scan_range : py_range)
  (i : Z) : float :=
  match score_at roi_mask axis scan_range i with
  | Ok s => s
  | Raise _ => of_int 0
  end.

(** Each score is at least the one before, starting from [m0]. *)
Fixpoint ascending (sc : Z -> float) (m0 : float) (l : list Z) : Prop :=
  match l with
  | [] => True
  | i :: l' => fle m0 (sc i) = true /\ ascending sc (sc i) l'
  end.

End ArgMax.

(** ** Sample inputs *)

(** An 8x8 mask without any skeleton pixel, and one full of them. *)
Definition blank_mask : ndarray := mk_ndarray 8 8 (fun _ _ => 0).
Definition solid_mask : ndarray := mk_ndarray 8 8 (fun _ _ => 255).

(** An 8x8 mask holding the one-pixel ring of a frame whose corners are
    [(1, 1)] and [(6, 6)]. *)
Definition ring_mask : ndarray :=
  mk_ndarray 8 8 (fun r c =>
    if ((r =? 1) || (r =? 6))%nat && (1 <=? c)%nat && (c <=? 6)%nat then 255
    else if ((c =? 1) || (c =? 6))%nat && (1 <=? r)%nat && (r <=? 6)%nat then 255
    else 0).

(** An 8x8 mask with 7 skeleton pixels on row 3 and 6 on row 2. *)
Definition near_tie_mask : ndarray :=
  mk_ndarray 8 8 (fun r c =>
    if (r =? 3)%nat && (c <=? 6)%nat then 255
    else if (r =? 2)%nat && (c <=? 5)%nat then 255
    else 0).

(** Stand-ins for the OpenCV collaborators of [remove_border]: an image
    is its shape together with the bounding rectangles of the contours
    that would be found in it once padded; the area of a contour is the
    area of its rectangle, and its skeleton is empty. *)
Definition toy_image : Type := (nat * nat) * list (Z * Z * Z * Z).

Definition toy_shape (img : toy_image) : nat * nat := fst img.

Definition toy_copyMakeBorder (img : toy_image) (p : nat) : toy_image :=
  ((fst (fst img) + 2 * p, snd (fst img) + 2 * p)%nat, snd img).

Definition toy_findContours (img : toy_image) : list (Z * Z * Z * Z) := snd img.

Definition toy_contourArea (c : Z * Z * Z * Z) : Q :=
  let '(_, _, w, h) := c in inject_Z (w * h).

Definition toy_boundingRect (c : Z * Z * Z * Z) : Z * Z * Z * Z := c.

Definition toy_skeleton_of (img : toy_image) (c : Z * Z * Z * Z) (iterations : nat)
  : ndarray :=
  mk_ndarray (fst (fst img)) (snd (fst img)) (fun _ _ => 0).

Definition toy_slice (img : toy_image) (y1 y2 x1 x2 : Z) : toy_image :=
  ((Z.to_nat (y2 - y1), Z.to_nat (x2 - x1)), []).

Definition toy_remove_border (panel_image : option toy_image)
  (search_zone_ratio : Q) (padding : Z) : result (option toy_image) :=
  remove_border (FO := QOps) toy_image (Z * Z * Z * Z) toy_shape
    toy_copyMakeBorder toy_findContours toy_contourArea toy_boundingRect
    toy_skeleton_of toy_slice panel_image search_zone_ratio padding.

(** A 40x40 panel whose frame fills it, a blank one, and a 10x10 one. *)
Definition framed_panel : toy_image := ((40, 40)%nat, [(15, 15, 40, 40)]).
Definition white_panel : toy_image := ((40, 40)%nat, []).
Definition small_panel : toy_image := ((10, 10)%nat, [(15, 15, 10, 10)]).

(** Four panels in the quadrants of a 220 pixels wide page. *)
Definition top_left : item := mk_item 0 0 0 100 100.
Definition top_right : item := mk_item 1 120 0 100 100.
Definition bottom_left : item := mk_item 2 0 120 100 100.
Definition bottom_right : item := mk_item 3 120 120 100 100.
Definition quadrants : list item := [top_left; top_right; bottom_left; bottom_right].

(** A 100 pixels wide page whose first row holds a wide panel and a
    small one, both at [y = 0], above two panels side by side. *)
Definition wide : item := mk_item 10 0 0 60 40.
Definition right_small : item := mk_item 11 70 0 30 40.
Definition lower_left : item := mk_item 12 0 50 45 40.
Definition lower_right : item := mk_item 13 55 50 45 40.
Definition tie_page : list item := [wide; right_small; lower_left; lower_right].

(** Two full-width panels and a single small one. *)
Definition banner_page : list item :=
  [mk_item 20 0 0 100 50; mk_item 21 0 60 100 50; mk_item 22 0 120 30 30].

(** Case analysis over the members of a literal list. *)
Ltac in_bounds_by_cases :=
  let i := fresh "i" in
  let Hi := fresh "Hi" in
  intros i Hi; vm_compute in Hi;
  repeat (destruct Hi as [Hi|Hi]; [subst i; vm_compute; split; congruence|]);
  contradiction.

Ltac by_cases_in :=
  let it := fresh "it" in
  let H := fresh "H" in
  intros it H; simpl in H;
  repeat (destruct H as [H|H]; [subst it; reflexivity|]);
  contradiction.

(** ** Further vocabulary and sample inputs *)

(** [l1] is [l2] with some elements left out, the order kept. *)
Inductive subseq {A : Type} : list A -> list A -> Prop :=
| subseq_nil : subseq [] []
| subseq_skip a l1 l2 : subseq l1 l2 -> subseq l1 (a :: l2)
| subseq_take a l1 l2 : subseq l1 l2 -> subseq (a :: l1) (a :: l2).

(** The two masks have the same shape and the same zero pixels. *)
Definition same_ink (m1 m2 : ndarray) : Prop :=
  shape0 m1 = shape0 m2 /\ shape1 m1 = shape1 m2 /\
  forall r c, (r < shape0 m1)%nat -> (c < shape1 m1)%nat ->
    (px m1 r c =? 0) = (px m2 r c =? 0).

(** An 8x8 mask whose only skeleton pixels are the whole of row 1, and
    the same line drawn with another intensity. *)
Definition bar_mask : ndarray :=
  mk_ndarray 8 8 (fun r _ => if (r =? 1)%nat then 255 else 0).
Definition faint_bar_mask : ndarray :=
  mk_ndarray 8 8 (fun r _ => if (r =? 1)%nat then 1 else 0).

Definition toy_crop_coordinates (padded_image : toy_image)
  (largest_contour : Z * Z * Z * Z) (search_zone_ratio : Q) (padding : Z)
  : result (Z * Z * Z * Z) :=
  crop_coordinates (FO := QOps) toy_image (Z * Z * Z * Z) toy_boundingRect
    toy_skeleton_of padded_image largest_contour search_zone_ratio padding.

(** The [x_centers] of the three column panels of [tie_page], sorted. *)
Definition tie_x_centers : list Q := [(45 # 2)%Q; (155 # 2)%Q; inject_Z 85].

(** A headline across the page above two panels side by side. *)
Definition headline : item := mk_item 30 0 0 100 30.
Definition below_left : item := mk_item 31 0 40 45 50.
Definition below_right : item := mk_item 32 55 40 45 50.
Definition headline_page : list item := [below_left; headline; below_right].

(** Two contours, a wide one above a narrow one: arrays of four points
    whose bounding rectangles are [(0, 0, 100, 50)] and [(0, 60, 40, 50)]. *)
Definition contour_page : list item :=
  [mk_contour 40 0 0 100 50; mk_contour 41 0 60 40 50].

(** The four quadrants as contours: no panel passes the spanning test. *)
Definition contour_quadrants : list item :=
  [mk_contour 50 0 0 100 100; mk_contour 51 120 0 100 100;
   mk_contour 52 0 120 100 100; mk_contour 53 120 120 100 100].

(** ** Facts on the float order *)

Section FloatFacts.
Context {FO : FloatOps} {PF : PyFloat FO}.

Lemma fle_refl (a : float) : fle a a = true.
Proof. destruct (fle_total a a); assumption. Qed.

Lemma flt_fle (a b : float) : flt a b = true -> fle a b = true.
Proof.
  unfold flt. intros H. apply negb_true_iff in H.
  destruct (fle_total a b) as [E|E]; [assumption | congruence].
Qed.

Lemma fge_false_flt (a b : float) : fge a b = false -> flt a b = true.
Proof. unfold fge, flt. now intros ->. Qed.

Lemma flt_not_fle (a b : float) : flt a b = true -> fle b a = true -> False.
Proof. unfold flt. intros H1 H2. rewrite H2 in H1. discriminate. Qed.

Lemma feq_refl (a : float) : feq a a = true.
Proof. unfold feq. now rewrite fle_refl. Qed.

End FloatFacts.

(** ** Facts on [range] *)

Lemma range_len_pos_iff (r : py_range) :
  0 < range_len r <-> 0 < step r * (stop r - start r).
Proof.
  unfold range_len.
  destruct (0 <? step r) eqn:E1; destruct (start r <? stop r) eqn:E2; simpl;
    try (destruct (step r <? 0) eqn:E3; destruct (stop r <? start r) eqn:E4; simpl);
    try apply Z.ltb_lt in E1; try apply Z.ltb_ge in E1;
    try apply Z.ltb_lt in E2; try apply Z.ltb_ge in E2;
    try apply Z.ltb_lt in E3; try apply Z.ltb_ge in E3;
    try apply Z.ltb_lt in E4; try apply Z.ltb_ge in E4.
  all: try (split; intros; nia).
  - split; intros _; [nia|].
    assert (0 <= (stop r - start r - 1) / step r) by (apply Z.div_pos; lia). lia.
  - split; intros _; [nia|].
    assert (0 <= (start r - stop r - 1) / - step r) by (apply Z.div_pos; lia). lia.
Qed.

Lemma range_elems_nonempty_iff (r : py_range) :
  range_elems r <> [] <-> 0 < step r * (stop r - start r).
Proof.
  rewrite <- range_len_pos_iff. unfold range_elems.
  destruct (range_len r) as [|p|p] eqn:E; simpl.
  - split; [intros H; now elim H | lia].
  - split; [lia | intros _].
    destruct (Pos.to_nat p) eqn:Ep; [lia | discriminate].
  - split; [intros H; now elim H | lia].
Qed.

Lemma positive_span_nonempty (r : py_range) :
  towards_stop r -> 0 < Z.abs (stop r - start r) -> range_elems r <> [].
Proof.
  unfold towards_stop. intros Hd Hs. apply range_elems_nonempty_iff.
  destruct (Z.sgn_spec (step r)) as [[? E]|[[? E]|[? E]]];
    destruct (Z.sgn_spec (stop r - start r)) as [[? E']|[[? E']|[? E']]];
    rewrite E, E' in Hd; try discriminate; try nia.
Qed.

Lemma nonempty_positive_span (r : py_range) :
  range_elems r <> [] -> 0 < Z.abs (stop r - start r).
Proof.
  rewrite range_elems_nonempty_iff. intros H.
  assert (stop r - start r <> 0) by nia. lia.
Qed.

(** The scanned indices lie between [start], included, and [stop],
    excluded. *)
Lemma range_elems_between (r : py_range) (i : Z) :
  In i (range_elems r) ->
  start r <= i < stop r \/ stop r < i <= start r.
Proof.
  unfold range_elems. intros H. apply in_map_iff in H.
  destruct H as [k [<- Hk]]. apply in_seq in Hk.
  assert (Hlen : Z.of_nat k < range_len r) by lia. clear Hk.
  unfold range_len in Hlen.
  destruct ((0 <? step r) && (start r <? stop r)) eqn:E1.
  - apply andb_true_iff in E1. destruct E1 as [Es El].
    apply Z.ltb_lt in Es. apply Z.ltb_lt in El. left.
    pose proof (Z.mul_div_le (stop r - start r - 1) (step r) Es). nia.
  - destruct ((step r <? 0) && (stop r <? start r)) eqn:E2; [|lia].
    apply andb_true_iff in E2. destruct E2 as [Es El].
    apply Z.ltb_lt in Es. apply Z.ltb_lt in El. right.
    assert (Es' : 0 < - step r) by lia.
    pose proof (Z.mul_div_le (start r - stop r - 1) (- step r) Es'). nia.
Qed.

Lemma range_elems_hd (r : py_range) :
  range_elems r <> [] -> hd_error (range_elems r) = Some (start r).
Proof.
  unfold range_elems. intros H.
  destruct (Z.to_nat (range_len r)) as [|n]; [now elim H|].
  simpl. now rewrite Z.add_0_r.
Qed.

(** ** [_find_best_border_line] *)

Section BorderFacts.
Context {FO : FloatOps} {PF : PyFloat FO}.

Lemma count_nonzero_nonneg (l : list Z) : 0 <= count_nonzero l.
Proof. unfold count_nonzero. lia. Qed.

Lemma np_index_valid (n : nat) (i : Z) :
  - Z.of_nat n <= i < Z.of_nat n ->
  exists k, np_index n i = Ok k /\ (k < n)%nat.
Proof.
  intros H. unfold np_index.
  destruct (0 <=? i) eqn:E0.
  - apply Z.leb_le in E0.
    assert (E1 : (i <? Z.of_nat n) = true) by (apply Z.ltb_lt; lia).
    rewrite E1. simpl. exists (Z.to_nat i). split; [reflexivity | lia].
  - apply Z.leb_gt in E0. simpl.
    assert (E1 : (- Z.of_nat n <=? i) = true) by (apply Z.leb_le; lia).
    assert (E2 : (i <? 0) = true) by (apply Z.ltb_lt; lia).
    rewrite E1, E2. simpl. exists (Z.to_nat (i + Z.of_nat n)).
    split; [reflexivity | lia].
Qed.

Lemma continuity_nonneg (m : ndarray) (axis i c : Z) :
  continuity m axis i = Ok c -> 0 <= c.
Proof.
  unfold continuity.
  destruct (axis =? 1).
  - destruct (np_index (shape0 m) i); simpl; [|discriminate].
    intros [= <-]. apply count_nonzero_nonneg.
  - destruct (np_index (shape1 m) i); simpl; [|discriminate].
    intros [= <-]. apply count_nonzero_nonneg.
Qed.

Lemma continuity_in_bounds (m : ndarray) (axis i : Z) :
  - Z.of_nat (scan_dim m axis) <= i < Z.of_nat (scan_dim m axis) ->
  exists c, continuity m axis i = Ok c.
Proof.
  unfold scan_dim, continuity. intros H.
  destruct (axis =? 1);
    destruct (np_index_valid _ _ H) as [k [-> _]]; simpl; eauto.
Qed.

Lemma score_at_in_bounds (m : ndarray) (axis : Z) (r : py_range) (i : Z) :
  - Z.of_nat (scan_dim m axis) <= i < Z.of_nat (scan_dim m axis) ->
  exists s, score_at m axis r i = Ok s.
Proof.
  intros H. destruct (continuity_in_bounds m axis i H) as [c Hc].
  unfold score_at. rewrite Hc. simpl. eauto.
Qed.

(** A score is never below the initial [max_score]. *)
Lemma score_nonneg (r : py_range) (c i : Z) :
  0 <= c -> 0 < total_span r -> fle (of_int 0) (score r c i) = true.
Proof.
  intros Hc Hs. unfold score.
  apply fmul_nonneg.
  - now apply of_int_mono.
  - apply fadd_nonneg.
    + apply of_int_mono. lia.
    + apply fdiv_nonneg.
      * apply of_int_mono. lia.
      * now apply of_int_pos.
Qed.

Lemma score_ge_initial (r : py_range) (c i : Z) :
  0 <= c -> 0 < total_span r -> fle (of_int (-1)) (score r c i) = true.
Proof.
  intros Hc Hs. apply fle_trans with (of_int 0).
  - apply of_int_mono. lia.
  - now apply score_nonneg.
Qed.

Lemma score_at_ge_initial (m : ndarray) (axis : Z) (r : py_range) (i : Z) (s : float) :
  0 < total_span r -> score_at m axis r i = Ok s -> fle (of_int (-1)) s = true.
Proof.
  intros Hs. unfold score_at.
  destruct (continuity m axis i) as [c|] eqn:Hc; simpl; [|discriminate].
  intros [= <-]. apply score_ge_initial; [|assumption].
  now apply continuity_nonneg in Hc.
Qed.

(** The loop is the pure fold as long as no index is refused. *)
Lemma scan_loop_pure (m : ndarray) (axis : Z) (r : py_range) (sc : Z -> float)
  (l : list Z) :
  (forall i, In i l -> score_at m axis r i = Ok (sc i)) ->
  forall st, scan_loop m axis r l st = Ok (argmax_last sc l st).
Proof.
  induction l as [|i l IH]; intros Hsc st; simpl.
  - reflexivity.
  - unfold scan_step. rewrite (Hsc i) by now left. simpl.
    unfold argmax_last in *. simpl. unfold keep_best at 2.
    destruct (fge (sc i) (snd st)); simpl; apply IH;
      intros j Hj; apply Hsc; now right.
Qed.

Lemma scan_loop_ok (m : ndarray) (axis : Z) (r : py_range) (l : list Z) :
  forall st st', scan_loop m axis r l st = Ok st' ->
  forall i, In i l -> exists s, score_at m axis r i = Ok s.
Proof.
  induction l as [|j l IH]; intros st st' H i Hi; simpl in *.
  - contradiction.
  - unfold scan_step in H.
    destruct (score_at m axis r j) as [s|] eqn:Hs; simpl in H; [|discriminate].
    destruct Hi as [<-|Hi]; [eauto|].
    destruct (fge s (snd st)); simpl in H; eapply IH; eauto.
Qed.

(** What the fold returns: an upper bound of all scores, reached at the
    returned index, and strictly above every score scanned after it. *)
Lemma argmax_last_spec (sc : Z -> float) (l : list Z) :
  forall st,
    fle (snd st) (snd (argmax_last sc l st)) = true /\
    (forall j, In j l -> fle (sc j) (snd (argmax_last sc l st)) = true) /\
    ((argmax_last sc l st = st /\
      forall j, In j l -> flt (sc j) (snd st) = true) \/
     (exists pre post,
        l = pre ++ fst (argmax_last sc l st) :: post /\
        snd (argmax_last sc l st) = sc (fst (argmax_last sc l st)) /\
        forall j, In j post -> flt (sc j) (snd (argmax_last sc l st)) = true)).
Proof.
  induction l as [|i l IH]; intros st.
  - simpl. split; [apply fle_refl|]. split; [intros j []|].
    left. split; [reflexivity | intros j []].
  - unfold argmax_last in *. simpl.
    destruct (IH (keep_best sc st i)) as [IH1 [IH2 IH3]].
    assert (Hst : fle (snd st) (snd (keep_best sc st i)) = true).
    { unfold keep_best. destruct (fge (sc i) (snd st)) eqn:E; simpl.
      - exact E.
      - apply fle_refl. }
    assert (Hi : fle (sc i) (snd (keep_best sc st i)) = true).
    { unfold keep_best. destruct (fge (sc i) (snd st)) eqn:E; simpl.
      - apply fle_refl.
      - apply flt_fle. now apply fge_false_flt. }
    split; [eapply fle_trans; eauto|].
    split.
    { intros j [<-|Hj]; [eapply fle_trans; eauto | now apply IH2]. }
    destruct IH3 as [[Heq Hall]|[pre [post [Hl [Hs Hpost]]]]].
    + rewrite Heq in *. unfold keep_best in *.
      destruct (fge (sc i) (snd st)) eqn:E; simpl in *.
      * right. exists [], l. simpl. repeat split; assumption.
      * left. split; [reflexivity|].
        intros j [<-|Hj]; [now apply fge_false_flt | now apply Hall].
    + right. exists (i :: pre), post. simpl.
      split; [now rewrite <- Hl|]. split; assumption.
Qed.

(** On ascending scores the fold ends on the last index. *)
Lemma argmax_last_ascending (sc : Z -> float) (l : list Z) :
  forall st d, l <> [] -> ascending sc (snd st) l ->
  argmax_last sc l st = (last l d, sc (last l d)).
Proof.
  induction l as [|i l IH]; intros st d Hne Hasc; [now elim Hne|].
  destruct Hasc as [H0 Hasc]. unfold argmax_last in *. simpl fold_left.
  unfold keep_best at 2. unfold fge. rewrite H0.
  destruct l as [|j l].
  - reflexivity.
  - rewrite (IH (i, sc i) d); [reflexivity | discriminate | exact Hasc].
Qed.

End BorderFacts.

Lemma count_nonzero_map {A : Type} (f : A -> Z) (l : list A) :
  count_nonzero (map f l) =
  Z.of_nat (length (filter (fun a => negb (f a =? 0)) l)).
Proof.
  unfold count_nonzero. f_equal.
  induction l as [|a l IH]; simpl; [reflexivity|].
  destruct (f a =? 0); simpl; now rewrite IH.
Qed.

Lemma np_index_line_of (n : nat) (i : Z) :
  - Z.of_nat n <= i < Z.of_nat n -> np_index n i = Ok (line_of n i).
Proof.
  intros H. unfold np_index, line_of.
  destruct (0 <=? i) eqn:E0; simpl.
  - apply Z.leb_le in E0.
    replace (i <? Z.of_nat n) with true by (symmetry; apply Z.ltb_lt; lia).
    replace (i <? 0) with false by (symmetry; apply Z.ltb_ge; lia).
    reflexivity.
  - apply Z.leb_gt in E0.
    replace (- Z.of_nat n <=? i) with true by (symmetry; apply Z.leb_le; lia).
    replace (i <? 0) with true by (symmetry; apply Z.ltb_lt; lia).
    reflexivity.
Qed.

(** The continuity of a valid line is the number of its foreground
    pixels. *)
Lemma continuity_foreground_count (m : ndarray) (axis i : Z) :
  - Z.of_nat (scan_dim m axis) <= i < Z.of_nat (scan_dim m axis) ->
  continuity m axis i = Ok (foreground_count m axis i).
Proof.
  unfold scan_dim, continuity, foreground_count. intros H.
  destruct (axis =? 1); rewrite (np_index_line_of _ _ H); simpl; f_equal.
  - unfold row. apply count_nonzero_map.
  - unfold col. apply (count_nonzero_map (fun r => px m r _)).
Qed.

Section BorderClaims.
Context {FO : FloatOps} {PF : PyFloat FO}.

(** C9.  Whenever the span [|stop - start|] of the scan range is 0,
    [_find_best_border_line] returns [start] at once, whatever the mask
    and the axis: no line of the mask is read. *)
Theorem find_best_border_line_zero_span (roi_mask : ndarray) (axis : Z)
  (scan_range : py_range) :
  Z.abs (stop scan_range - start scan_range) = 0 ->
  _find_best_border_line roi_mask axis scan_range = Ok (start scan_range).
Proof.
  intros H. unfold _find_best_border_line, total_span. now rewrite H.
Qed.

Lemma find_best_border_line_fold (roi_mask : ndarray) (axis : Z)
  (scan_range : py_range) (sc : Z -> float) :
  range_elems scan_range <> [] ->
  (forall i, In i (range_elems scan_range) ->
     score_at roi_mask axis scan_range i = Ok (sc i)) ->
  _find_best_border_line roi_mask axis scan_range =
  Ok (fst (argmax_last sc (range_elems scan_range)
             (start scan_range, of_int (-1)))).
Proof.
  intros Hne Hsc. unfold _find_best_border_line.
  pose proof (nonempty_positive_span _ Hne) as Hs.
  fold (total_span scan_range) in Hs.
  destruct (total_span scan_range =? 0) eqn:E; [apply Z.eqb_eq in E; lia|].
  now rewrite (scan_loop_pure _ _ _ sc _ Hsc).
Qed.

(** The fold started at [(start, -1)] on a non-empty scan. *)
Lemma argmax_last_scan (roi_mask : ndarray) (axis : Z) (scan_range : py_range)
  (sc : Z -> float) :
  range_elems scan_range <> [] ->
  (forall i, In i (range_elems scan_range) ->
     score_at roi_mask axis scan_range i = Ok (sc i)) ->
  exists best pre post,
    fst (argmax_last sc (range_elems scan_range)
           (start scan_range, of_int (-1))) = best /\
    range_elems scan_range = pre ++ best :: post /\
    (forall j, In j (range_elems scan_range) -> fle (sc j) (sc best) = true) /\
    (forall j, In j post -> flt (sc j) (sc best) = true).
Proof.
  intros Hne Hsc.
  pose proof (nonempty_positive_span _ Hne) as Hs.
  fold (total_span scan_range) in Hs.
  destruct (argmax_last_spec sc (range_elems scan_range)
              (start scan_range, of_int (-1))) as [_ [Hmax Hpos]].
  destruct Hpos as [[_ Hall]|[pre [post [Hl [Hbest Hpost]]]]].
  - destruct (range_elems scan_range) as [|i l] eqn:El; [now elim Hne|].
    exfalso. apply (flt_not_fle (sc i) (of_int (-1))).
    + apply Hall. now left.
    + eapply score_at_ge_initial; [exact Hs|]. apply Hsc. now left.
  - eexists _, pre, post. split; [reflexivity|]. split; [exact Hl|].
    rewrite Hbest in Hmax, Hpost. split; assumption.
Qed.

(** C10.  On a non-empty scan range the index returned by
    [_find_best_border_line] is one of the scanned indices, between
    [start], included, and [stop], excluded: whenever the function
    returns, and it does return when every scanned index is a valid
    index of the mask.  The scan begins at [start], whose score is not
    below the initial [max_score] of -1, so that the first iteration
    already replaces the initial pair. *)
Theorem find_best_border_line_in_scan (roi_mask : ndarray) (axis : Z)
  (scan_range : py_range) :
  range_elems scan_range <> [] ->
  (forall i, _find_best_border_line roi_mask axis scan_range = Ok i ->
     In i (range_elems scan_range) /\
     (start scan_range <= i < stop scan_range \/
      stop scan_range < i <= start scan_range)) /\
  (in_bounds roi_mask axis scan_range ->
   exists i, _find_best_border_line roi_mask axis scan_range = Ok i /\
             In i (range_elems scan_range)) /\
  hd_error (range_elems scan_range) = Some (start scan_range) /\
  (forall s, score_at roi_mask axis scan_range (start scan_range) = Ok s ->
     scan_step roi_mask axis scan_range (start scan_range, of_int (-1))
       (start scan_range) = Ok (start scan_range, s)).
Proof.
  intros Hne.
  assert (Hgen : (forall i, In i (range_elems scan_range) ->
                    exists s, score_at roi_mask axis scan_range i = Ok s) ->
                 exists i, _find_best_border_line roi_mask axis scan_range = Ok i /\
                           In i (range_elems scan_range)).
  { intros Hok.
    assert (Hsc : forall i, In i (range_elems scan_range) ->
              score_at roi_mask axis scan_range i =
              Ok (score_or_zero roi_mask axis scan_range i)).
    { intros i Hi. unfold score_or_zero. destruct (Hok i Hi) as [s ->]. reflexivity. }
    destruct (argmax_last_scan _ _ _ _ Hne Hsc) as [best [pre [post [Hb [Hl _]]]]].
    exists best. split.
    - rewrite (find_best_border_line_fold _ _ _ _ Hne Hsc). now rewrite Hb.
    - rewrite Hl. apply in_or_app. right. now left. }
  split; [|split; [|split]].
  - intros i Hi.
    assert (Hok : forall j, In j (range_elems scan_range) ->
              exists s, score_at roi_mask axis scan_range j = Ok s).
    { unfold _find_best_border_line in Hi.
      destruct (total_span scan_range =? 0) eqn:E.
      - apply Z.eqb_eq in E. apply nonempty_positive_span in Hne.
        unfold total_span in E. lia.
      - destruct (scan_loop roi_mask axis scan_range (range_elems scan_range)
                    (start scan_range, of_int (-1))) as [st|] eqn:Hl;
          [|discriminate].
        eapply scan_loop_ok; eauto. }
    destruct (Hgen Hok) as [i' [Hi' Hin]].
    assert (i = i') by congruence. subst i'.
    split; [exact Hin | now apply range_elems_between].
  - intros Hb. apply Hgen. intros i Hi. apply score_at_in_bounds. now apply Hb.
  - now apply range_elems_hd.
  - intros s Hs. unfold scan_step. rewrite Hs. simpl.
    unfold fge. rewrite (score_at_ge_initial _ _ _ _ _ (nonempty_positive_span _ Hne) Hs).
    reflexivity.
Qed.

(** C4.  For every mask and every scan range of positive span that
    runs from [start] towards [stop] over valid indices of the mask,
    [_find_best_border_line] returns a scanned index [best] whose score
    [count * (1 + |i - start| / span)], with [count] the number of
    foreground pixels on the full line [i] and every operation carried
    out in the float arithmetic, is maximal among the scanned indices;
    every index scanned after [best] has a strictly smaller score, so
    that among the indices of maximal score [best] is the one scanned
    last.  The score the function computes for a scanned line is the
    one displayed. *)
Theorem find_best_border_line_argmax (roi_mask : ndarray) (axis : Z)
  (scan_range : py_range) :
  towards_stop scan_range ->
  0 < Z.abs (stop scan_range - start scan_range) ->
  in_bounds roi_mask axis scan_range ->
  let weighted (i : Z) : float :=
    fmul (of_int (foreground_count roi_mask axis i))
         (fadd (of_int 1)
               (fdiv (of_int (Z.abs (i - start scan_range)))
                     (of_int (Z.abs (stop scan_range - start scan_range))))) in
  exists best pre post,
    _find_best_border_line roi_mask axis scan_range = Ok best /\
    range_elems scan_range = pre ++ best :: post /\
    (forall j, In j (range_elems scan_range) ->
       score_at roi_mask axis scan_range j = Ok (weighted j)) /\
    (forall j, In j (range_elems scan_range) ->
       fle (weighted j) (weighted best) = true) /\
    (forall j, In j post -> flt (weighted j) (weighted best) = true).
Proof.
  intros Hd Hs Hb weighted.
  pose proof (positive_span_nonempty _ Hd Hs) as Hne.
  assert (Hsc : forall i, In i (range_elems scan_range) ->
            score_at roi_mask axis scan_range i = Ok (weighted i)).
  { intros i Hi. unfold score_at.
    rewrite (continuity_foreground_count roi_mask axis i (Hb i Hi)).
    reflexivity. }
  destruct (argmax_last_scan _ _ _ _ Hne Hsc)
    as [best [pre [post [Hbest [Hl [Hmax Hpost]]]]]].
  exists best, pre, post.
  split; [|split; [exact Hl|split; [exact Hsc|split; [exact Hmax|exact Hpost]]]].
  rewrite (find_best_border_line_fold _ _ _ _ Hne Hsc). now rewrite Hbest.
Qed.

End BorderClaims.

(** *** Uniform masks *)

Lemma count_nonzero_all (f : nat -> Z) (l : list nat) :
  (forall k, In k l -> f k <> 0) -> count_nonzero (map f l) = Z.of_nat (length l).
Proof.
  unfold count_nonzero. intros H. f_equal.
  induction l as [|k l IH]; simpl; [reflexivity|].
  destruct (f k =? 0) eqn:E.
  - apply Z.eqb_eq in E. exfalso. apply (H k); [now left | exact E].
  - simpl. f_equal. apply IH. intros j Hj. apply H. now right.
Qed.

Lemma count_nonzero_none (f : nat -> Z) (l : list nat) :
  (forall k, In k l -> f k = 0) -> count_nonzero (map f l) = 0.
Proof.
  unfold count_nonzero. intros H.
  replace (filter (fun v => negb (v =? 0)) (map f l)) with (@nil Z); [reflexivity|].
  induction l as [|k l IH]; simpl; [reflexivity|].
  rewrite (H k) by now left. simpl. apply IH. intros j Hj. apply H. now right.
Qed.

(** On a uniform mask every line that can be read has the same count. *)
Lemma uniform_continuity (m : ndarray) (axis : Z) :
  all_foreground m \/ all_background m ->
  exists c, 0 <= c /\
    forall i, - Z.of_nat (scan_dim m axis) <= i < Z.of_nat (scan_dim m axis) ->
      continuity m axis i = Ok c.
Proof.
  intros [Hfg|Hbg]; unfold scan_dim, continuity; destruct (axis =? 1).
  - exists (Z.of_nat (shape1 m)). split; [lia|]. intros i Hi.
    destruct (np_index_valid _ _ Hi) as [k [-> Hk]]. simpl. f_equal.
    unfold row. rewrite count_nonzero_all; [now rewrite length_seq|].
    intros c Hc. apply in_seq in Hc. apply Hfg; lia.
  - exists (Z.of_nat (shape0 m)). split; [lia|]. intros i Hi.
    destruct (np_index_valid _ _ Hi) as [k [-> Hk]]. simpl. f_equal.
    unfold col. rewrite count_nonzero_all; [now rewrite length_seq|].
    intros r Hr. apply in_seq in Hr. apply Hfg; lia.
  - exists 0. split; [lia|]. intros i Hi.
    destruct (np_index_valid _ _ Hi) as [k [-> Hk]]. simpl. f_equal.
    unfold row. apply count_nonzero_none.
    intros c Hc. apply in_seq in Hc. apply Hbg; lia.
  - exists 0. split; [lia|]. intros i Hi.
    destruct (np_index_valid _ _ Hi) as [k [-> Hk]]. simpl. f_equal.
    unfold col. apply count_nonzero_none.
    intros r Hr. apply in_seq in Hr. apply Hbg; lia.
Qed.

Section UniformMask.
Context {FO : FloatOps} {PF : PyFloat FO}.

(** With the continuity fixed, the score grows with the distance from
    [start]. *)
Lemma score_mono (r : py_range) (c i j : Z) :
  0 <= c -> 0 < total_span r ->
  Z.abs (i - start r) <= Z.abs (j - start r) ->
  fle (score r c i) (score r c j) = true.
Proof.
  intros Hc Hs Hij. unfold score.
  apply fmul_mono_r; [now apply of_int_mono|].
  apply fadd_mono_r. apply fdiv_mono_l; [now apply of_int_pos|].
  now apply of_int_mono.
Qed.

Lemma ascending_range (r : py_range) (c : Z) (n : nat) :
  0 <= c -> 0 < total_span r ->
  forall a m0,
    fle m0 (score r c (start r + Z.of_nat a * step r)) = true ->
    ascending (score r c) m0
      (map (fun k => start r + Z.of_nat k * step r) (seq a n)).
Proof.
  intros Hc Hs. induction n as [|n IH]; intros a m0 H0; simpl; [trivial|].
  split; [exact H0|]. apply IH. apply score_mono; try assumption.
  replace (start r + Z.of_nat a * step r - start r)
    with (Z.of_nat a * step r) by ring.
  replace (start r + Z.of_nat (S a) * step r - start r)
    with (Z.of_nat (S a) * step r) by ring.
  rewrite !Z.abs_mul. apply Z.mul_le_mono_nonneg_r; lia.
Qed.

(** C3 (amended).  Over a mask that is all foreground or all background,
    and a scan range of positive span running towards [stop] over valid
    indices, [_find_best_border_line] returns the index scanned last;
    with a step of 1 or -1 that is [stop - step]. *)
Theorem find_best_border_line_uniform (roi_mask : ndarray) (axis : Z)
  (scan_range : py_range) :
  all_foreground roi_mask \/ all_background roi_mask ->
  towards_stop scan_range ->
  0 < Z.abs (stop scan_range - start scan_range) ->
  in_bounds roi_mask axis scan_range ->
  _find_best_border_line roi_mask axis scan_range =
    Ok (last (range_elems scan_range) (start scan_range)) /\
  (Z.abs (step scan_range) = 1 ->
   last (range_elems scan_range) (start scan_range) =
     stop scan_range - step scan_range).
Proof.
  intros Hu Hd Hs Hb.
  pose proof (positive_span_nonempty _ Hd Hs) as Hne.
  split.
  - destruct (uniform_continuity roi_mask axis Hu) as [c [Hc Hcont]].
    assert (Hsc : forall i, In i (range_elems scan_range) ->
              score_at roi_mask axis scan_range i = Ok (score scan_range c i)).
    { intros i Hi. unfold score_at. now rewrite (Hcont i (Hb i Hi)). }
    rewrite (find_best_border_line_fold _ _ _ _ Hne Hsc).
    rewrite (argmax_last_ascending _ _ _ (start scan_range) Hne); [reflexivity|].
    apply ascending_range; try assumption.
    now apply score_ge_initial.
  - intros Hstep. apply range_elems_nonempty_iff in Hne.
    unfold range_elems, range_len.
    assert (Hcases : (step scan_range = 1 /\ start scan_range < stop scan_range) \/
                     (step scan_range = -1 /\ stop scan_range < start scan_range))
      by nia.
    destruct Hcases as [[E L]|[E L]]; rewrite E.
    + replace (0 <? 1) with true by reflexivity.
      replace (start scan_range <? stop scan_range) with true
        by (symmetry; now apply Z.ltb_lt).
      simpl andb. cbv iota. rewrite Z.div_1_r.
      replace (Z.to_nat (stop scan_range - start scan_range - 1 + 1))
        with (S (Z.to_nat (stop scan_range - start scan_range - 1))) by lia.
      rewrite seq_S, map_app. cbn [map]. rewrite last_last. lia.
    + replace (0 <? -1) with false by reflexivity.
      replace (-1 <? 0) with true by reflexivity.
      replace (stop scan_range <? start scan_range) with true
        by (symmetry; now apply Z.ltb_lt).
      simpl andb. cbv iota. change (- -1) with 1. rewrite Z.div_1_r.
      replace (Z.to_nat (start scan_range - stop scan_range - 1 + 1))
        with (S (Z.to_nat (start scan_range - stop scan_range - 1))) by lia.
      rewrite seq_S, map_app. cbn [map]. rewrite last_last. lia.
Qed.

End UniformMask.

(** *** [_find_best_border_line] on the sample masks

    The ranges are those [remove_border] builds for an 8x8 region with
    [search_zone_ratio = 0.25]: [range(2, -1, -1)] for the top and left
    borders, [range(6, 8)] for the bottom and right ones. *)

Lemma find_best_border_line_zero_span_witness :
  Z.abs (stop (range 6 6 1) - start (range 6 6 1)) = 0 /\
  _find_best_border_line (FO := QOps) ring_mask 1 (range 6 6 1) = Ok 6.
Proof.
  split; [reflexivity|].
  apply (find_best_border_line_zero_span ring_mask 1 (range 6 6 1)).
  reflexivity.
Defined.

Lemma find_best_border_line_in_scan_witness :
  range_elems (range 2 (-1) (-1)) <> [] /\
  ((forall i, _find_best_border_line (FO := QOps) ring_mask 1 (range 2 (-1) (-1)) = Ok i ->
      In i (range_elems (range 2 (-1) (-1))) /\
      (start (range 2 (-1) (-1)) <= i < stop (range 2 (-1) (-1)) \/
       stop (range 2 (-1) (-1)) < i <= start (range 2 (-1) (-1)))) /\
   (in_bounds ring_mask 1 (range 2 (-1) (-1)) ->
    exists i, _find_best_border_line (FO := QOps) ring_mask 1 (range 2 (-1) (-1)) = Ok i /\
              In i (range_elems (range 2 (-1) (-1)))) /\
   hd_error (range_elems (range 2 (-1) (-1))) = Some (start (range 2 (-1) (-1))) /\
   (forall s, score_at (FO := QOps) ring_mask 1 (range 2 (-1) (-1))
                (start (range 2 (-1) (-1))) = Ok s ->
      scan_step ring_mask 1 (range 2 (-1) (-1))
        (start (range 2 (-1) (-1)), of_int (-1)) (start (range 2 (-1) (-1)))
      = Ok (start (range 2 (-1) (-1)), s))).
Proof.
  split; [vm_compute; discriminate|].
  apply (find_best_border_line_in_scan ring_mask 1 (range 2 (-1) (-1))).
  vm_compute; discriminate.
Defined.

Lemma find_best_border_line_argmax_witness :
  towards_stop (range 2 (-1) (-1)) /\
  0 < Z.abs (stop (range 2 (-1) (-1)) - start (range 2 (-1) (-1))) /\
  in_bounds ring_mask 1 (range 2 (-1) (-1)) /\
  let weighted (i : Z) : Q :=
    fmul (FloatOps := QOps) (of_int (foreground_count ring_mask 1 i))
         (fadd (of_int 1)
               (fdiv (of_int (Z.abs (i - start (range 2 (-1) (-1)))))
                     (of_int (Z.abs (stop (range 2 (-1) (-1))
                                     - start (range 2 (-1) (-1))))))) in
  exists best pre post,
    _find_best_border_line (FO := QOps) ring_mask 1 (range 2 (-1) (-1)) = Ok best /\
    range_elems (range 2 (-1) (-1)) = pre ++ best :: post /\
    (forall j, In j (range_elems (range 2 (-1) (-1))) ->
       score_at (FO := QOps) ring_mask 1 (range 2 (-1) (-1)) j = Ok (weighted j)) /\
    (forall j, In j (range_elems (range 2 (-1) (-1))) ->
       fle (FloatOps := QOps) (weighted j) (weighted best) = true) /\
    (forall j, In j post -> flt (FO := QOps) (weighted j) (weighted best) = true).
Proof.
  split; [reflexivity|]. split; [reflexivity|]. split; [in_bounds_by_cases|].
  apply (find_best_border_line_argmax (FO := QOps) ring_mask 1 (range 2 (-1) (-1)));
    [reflexivity | reflexivity | in_bounds_by_cases].
Defined.

(** C4, as stated, fails in three ways.  A range of positive span that
    does not run towards its stop scans nothing, and its start is
    returned although it is not a scanned index ([range(2, 5, -1)]).  A
    scanned index outside the mask raises [IndexError]
    ([range(8, -1, -1)] on 8 rows).  And the scores are compared as
    rounded: with 7 pixels on row 3 and 6 on row 2, the scan
    [range(4, -1, -1)] gives both rows the score 42/5, the largest, and
    row 2 is scanned after row 3; in binary64 the score of row 3 is the
    float above 8.4 and that of row 2 the float below, and row 3 is
    returned. *)
Lemma find_best_border_line_not_argmax :
  (0 < Z.abs (stop (range 2 5 (-1)) - start (range 2 5 (-1))) /\
   range_elems (range 2 5 (-1)) = [] /\
   _find_best_border_line (FO := B64Ops) blank_mask 1 (range 2 5 (-1)) = Ok 2) /\
  (0 < Z.abs (stop (range 8 (-1) (-1)) - start (range 8 (-1) (-1))) /\
   _find_best_border_line (FO := B64Ops) blank_mask 1 (range 8 (-1) (-1))
     = Raise IndexError) /\
  (0 < Z.abs (stop (range 4 (-1) (-1)) - start (range 4 (-1) (-1))) /\
   range_elems (range 4 (-1) (-1)) = [4; 3; 2; 1; 0] /\
   (forall j, In j [4; 3; 2; 1; 0] ->
      (inject_Z (foreground_count near_tie_mask 1 j)
         * (1 + inject_Z (Z.abs (j - 4)) / inject_Z 5)
       <= inject_Z (foreground_count near_tie_mask 1 2)
         * (1 + inject_Z (Z.abs (2 - 4)) / inject_Z 5))%Q) /\
   (inject_Z (foreground_count near_tie_mask 1 3)
      * (1 + inject_Z (Z.abs (3 - 4)) / inject_Z 5)
    == inject_Z (foreground_count near_tie_mask 1 2)
      * (1 + inject_Z (Z.abs (2 - 4)) / inject_Z 5))%Q /\
   _find_best_border_line (FO := B64Ops) near_tie_mask 1 (range 4 (-1) (-1))
     = Ok 3 /\
   _find_best_border_line (FO := QOps) near_tie_mask 1 (range 4 (-1) (-1))
     = Ok 2).
Proof.
  split; [|split].
  - split; [reflexivity|]. split; vm_compute; reflexivity.
  - split; [reflexivity|]. vm_compute; reflexivity.
  - split; [reflexivity|]. split; [reflexivity|].
    split; [|split; [|split]].
    + intros j Hj. simpl in Hj.
      destruct Hj as [<-|[<-|[<-|[<-|[<-|[]]]]]]; vm_compute; discriminate.
    + reflexivity.
    + vm_compute; reflexivity.
    + vm_compute; reflexivity.
Qed.

(** The top border of the ring is found at row 1, with score
    [6 * (1 + 1/3)]. *)
Example find_best_border_line_ring_top :
  _find_best_border_line (FO := QOps) ring_mask 1 (range 2 (-1) (-1)) = Ok 1 /\
  score_at (FO := QOps) ring_mask 1 (range 2 (-1) (-1)) 1 =
    Ok (inject_Z 6 * (inject_Z 1 + inject_Z 1 / inject_Z 3))%Q.
Proof. split; reflexivity. Qed.

(** C3, as stated, fails: over the blank mask the bottom scan
    [range(6, 8)] returns 7 and not its start 6, and over the solid mask
    the left scan [range(2, -1, -1)] returns 0 and not its start 2. *)
Lemma find_best_border_line_uniform_not_start :
  all_background blank_mask /\
  0 < Z.abs (stop (range 6 8 1) - start (range 6 8 1)) /\
  _find_best_border_line (FO := QOps) blank_mask 1 (range 6 8 1) = Ok 7 /\
  _find_best_border_line (FO := QOps) blank_mask 1 (range 6 8 1)
    <> Ok (start (range 6 8 1)) /\
  all_foreground solid_mask /\
  0 < Z.abs (stop (range 2 (-1) (-1)) - start (range 2 (-1) (-1))) /\
  _find_best_border_line (FO := QOps) solid_mask 0 (range 2 (-1) (-1)) = Ok 0 /\
  _find_best_border_line (FO := QOps) solid_mask 0 (range 2 (-1) (-1))
    <> Ok (start (range 2 (-1) (-1))).
Proof.
  split; [intros r c _ _; reflexivity|].
  split; [reflexivity|].
  split; [vm_compute; reflexivity|].
  split; [vm_compute; discriminate|].
  split; [intros r c _ _; discriminate|].
  split; [reflexivity|].
  split; [vm_compute; reflexivity|].
  vm_compute; discriminate.
Qed.

Lemma find_best_border_line_uniform_witness :
  (all_foreground solid_mask \/ all_background solid_mask) /\
  towards_stop (range 2 (-1) (-1)) /\
  0 < Z.abs (stop (range 2 (-1) (-1)) - start (range 2 (-1) (-1))) /\
  in_bounds solid_mask 0 (range 2 (-1) (-1)) /\
  _find_best_border_line (FO := QOps) solid_mask 0 (range 2 (-1) (-1)) =
    Ok (last (range_elems (range 2 (-1) (-1))) (start (range 2 (-1) (-1)))) /\
  (Z.abs (step (range 2 (-1) (-1))) = 1 ->
   last (range_elems (range 2 (-1) (-1))) (start (range 2 (-1) (-1))) =
     stop (range 2 (-1) (-1)) - step (range 2 (-1) (-1))).
Proof.
  split; [left; intros r c _ _; discriminate|].
  split; [reflexivity|]. split; [reflexivity|]. split; [in_bounds_by_cases|].
  apply (find_best_border_line_uniform solid_mask 0 (range 2 (-1) (-1)));
    [left; intros r c _ _; discriminate | reflexivity | reflexivity
    | in_bounds_by_cases].
Defined.

(** ** [remove_border] *)

Section RemoveBorderClaims.
Context {FO : FloatOps} {PF : PyFloat FO}.
Variables image contour : Type.
Variable img_shape : image -> nat * nat.
Variable copyMakeBorder : image -> nat -> image.
Variable findContours : image -> list contour.
Variable contourArea : contour -> float.
Variable boundingRect : contour -> Z * Z * Z * Z.
Variable skeleton_of : image -> contour -> nat -> ndarray.
Variable img_slice : image -> Z -> Z -> Z -> Z -> image.

(** C5.  [remove_border] returns its input image itself, raising
    nothing, when the image is absent, when its height or width is
    below 30, when no contour is found in the padded image, when the
    crop coordinates have [x1 >= x2] or [y1 >= y2], and when the cropped
    region has a height or width below 10. *)
Theorem remove_border_early_exit (panel_image : option image)
  (search_zone_ratio : float) (padding : Z) :
  early_exit image contour img_shape copyMakeBorder findContours contourArea
    boundingRect skeleton_of img_slice search_zone_ratio padding panel_image ->
  remove_border image contour img_shape copyMakeBorder findContours contourArea
    boundingRect skeleton_of img_slice panel_image search_zone_ratio padding
  = Ok panel_image.
Proof.
  intros H. unfold remove_border.
  destruct H as [ | img Hsmall | img Hnone
                | img c contours x1 y1 x2 y2 Hc Hcoords Hdeg
                | img c contours x1 y1 x2 y2 Hc Hcoords Htiny ].
  - reflexivity.
  - replace ((fst (img_shape img) <? 30)%nat || (snd (img_shape img) <? 30)%nat)
      with true; [reflexivity|].
    symmetry. apply orb_true_iff.
    destruct Hsmall as [L|L]; [left | right]; now apply Nat.ltb_lt.
  - destruct ((fst (img_shape img) <? 30)%nat || (snd (img_shape img) <? 30)%nat);
      [reflexivity|].
    now rewrite Hnone.
  - destruct ((fst (img_shape img) <? 30)%nat || (snd (img_shape img) <? 30)%nat);
      [reflexivity|].
    rewrite Hc, Hcoords. simpl.
    replace ((x1 >=? x2) || (y1 >=? y2)) with true; [reflexivity|].
    symmetry. apply orb_true_iff.
    destruct Hdeg as [L|L]; [left | right]; apply Z.geb_le; lia.
  - destruct ((fst (img_shape img) <? 30)%nat || (snd (img_shape img) <? 30)%nat);
      [reflexivity|].
    rewrite Hc, Hcoords. simpl.
    destruct ((x1 >=? x2) || (y1 >=? y2)); [reflexivity|].
    match goal with
    | |- (if ?b then _ else _) = _ => replace b with true; [reflexivity|]
    end.
    symmetry. apply orb_true_iff.
    destruct Htiny as [L|L]; [left | right]; now apply Nat.ltb_lt.
Qed.

End RemoveBorderClaims.

(** The framed 40x40 panel with [padding = 20]: the crop coordinates
    come out as [(35, 35, 34, 34)] and the panel is returned as it is. *)
Lemma remove_border_early_exit_witness :
  early_exit toy_image (Z * Z * Z * Z) toy_shape toy_copyMakeBorder
    toy_findContours toy_contourArea toy_boundingRect toy_skeleton_of toy_slice
    (25 # 100)%Q 20 (Some framed_panel) /\
  toy_remove_border (Some framed_panel) (25 # 100)%Q 20 = Ok (Some framed_panel).
Proof.
  assert (E : early_exit (FO := QOps) toy_image (Z * Z * Z * Z) toy_shape
                toy_copyMakeBorder toy_findContours toy_contourArea
                toy_boundingRect toy_skeleton_of toy_slice (25 # 100)%Q 20
                (Some framed_panel)).
  { apply (exit_degenerate (FO := QOps)) with
      (c := (15, 15, 40, 40)) (contours := []) (x1 := 35) (y1 := 35)
      (x2 := 34) (y2 := 34).
    - reflexivity.
    - vm_compute. reflexivity.
    - left. lia. }
  split; [exact E|].
  apply (remove_border_early_exit (FO := QOps) toy_image (Z * Z * Z * Z) toy_shape
           toy_copyMakeBorder toy_findContours toy_contourArea toy_boundingRect
           toy_skeleton_of toy_slice (Some framed_panel) (25 # 100)%Q 20 E).
Defined.

(** The pass-through cases on the stand-ins, and a crop that succeeds. *)
Example remove_border_pass_through :
  toy_remove_border None (25 # 100)%Q 5 = Ok None /\
  toy_remove_border (Some small_panel) (25 # 100)%Q 5 = Ok (Some small_panel) /\
  toy_remove_border (Some white_panel) (25 # 100)%Q 5 = Ok (Some white_panel) /\
  toy_remove_border (Some framed_panel) (25 # 100)%Q 20 = Ok (Some framed_panel) /\
  toy_remove_border (Some framed_panel) (25 # 100)%Q 15 = Ok (Some framed_panel) /\
  toy_remove_border (Some framed_panel) (25 # 100)%Q 5 = Ok (Some ((29, 29)%nat, [])).
Proof. repeat split; vm_compute; reflexivity. Qed.

(** ** Facts on the built-ins *)

Section SortedFacts.
Context {A K : Type} (ltb : K -> K -> bool) (key : A -> K).

Lemma insert_by_perm (a : A) (l : list A) :
  Permutation (a :: l) (insert_by ltb key a l).
Proof.
  induction l as [|b l IH]; simpl; [reflexivity|].
  destruct (ltb (key b) (key a)); [|reflexivity].
  rewrite perm_swap. now apply perm_skip.
Qed.

Lemma sorted_by_perm (l : list A) : Permutation l (sorted_by ltb key l).
Proof.
  induction l as [|a l IH]; simpl; [reflexivity|].
  rewrite <- insert_by_perm. now apply perm_skip.
Qed.

Lemma sorted_by_length (l : list A) : length (sorted_by ltb key l) = length l.
Proof. symmetry. apply Permutation_length, sorted_by_perm. Qed.

End SortedFacts.

(** Sorting on an integer key yields ascending keys. *)
Section SortedByZ.
Context {A : Type} (key : A -> Z).

Lemma insert_by_sorted (a : A) (l : list A) :
  Sorted (key_le key) l -> Sorted (key_le key) (insert_by Z.ltb key a l).
Proof.
  induction l as [|b l IH]; simpl; intros Hs.
  - repeat constructor.
  - destruct (key b <? key a) eqn:E.
    + apply Sorted_inv in Hs. destruct Hs as [Hs Hhd].
      constructor; [now apply IH|].
      destruct l as [|c l]; simpl.
      * constructor. unfold key_le. apply Z.ltb_lt in E. lia.
      * destruct (key c <? key a) eqn:E'.
        -- constructor. now inversion Hhd.
        -- constructor. unfold key_le. apply Z.ltb_lt in E. lia.
    + constructor; [exact Hs|]. constructor.
      unfold key_le. apply Z.ltb_ge in E. exact E.
Qed.

Lemma sorted_by_sorted (l : list A) : Sorted (key_le key) (sorted_by Z.ltb key l).
Proof.
  induction l as [|a l IH]; simpl; [constructor | now apply insert_by_sorted].
Qed.

End SortedByZ.

Section BuiltinFacts.
Context {FO : FloatOps} {PF : PyFloat FO}.

Lemma max_by_in {A : Type} (key : A -> float) (l : list A) :
  forall best, In (max_by key best l) (best :: l).
Proof.
  induction l as [|a l IH]; intros best; simpl; [now left|].
  destruct (IH (if fgt (key a) (key best) then a else best)) as [H|H].
  - destruct (fgt (key a) (key best)); rewrite <- H; auto.
  - auto.
Qed.

Lemma list_get_lt {A : Type} (l : list A) (i : nat) :
  (i < length l)%nat -> exists a, list_get l i = Ok a.
Proof.
  intros H. unfold list_get.
  destruct (nth_error l i) as [a|] eqn:E; [eauto|].
  apply nth_error_None in E. lia.
Qed.

End BuiltinFacts.

Lemma filter_split_perm {A : Type} (p : A -> bool) (l : list A) :
  Permutation l (filter (fun a => negb (p a)) l ++ filter p l).
Proof.
  induction l as [|a l IH]; simpl; [reflexivity|].
  destruct (p a); simpl.
  - now apply Permutation_cons_app.
  - now apply perm_skip.
Qed.


(** ** [sort_panels_by_column_then_row] *)

Section LayoutFacts.
Context {FO : FloatOps} {PF : PyFloat FO}.

Lemma gather_items (items : list item) : map d_item (gather items) = items.
Proof.
  unfold gather. rewrite map_map. simpl. apply map_id.
Qed.

Lemma datum_eq_same (d : datum) : datum_eq d d = Ok true.
Proof.
  unfold datum_eq, item_eq. rewrite Nat.eqb_refl. simpl.
  now rewrite !Z.eqb_refl, feq_refl.
Qed.

Lemma datum_eq_w (a b : datum) : datum_eq a b = Ok true -> d_w a = d_w b.
Proof.
  unfold datum_eq.
  destruct (item_eq (d_item a) (d_item b)) as [same|e]; simpl; [|discriminate].
  intros [= H].
  repeat (apply andb_true_iff in H; destruct H as [H ?]).
  now apply Z.eqb_eq.
Qed.

(** The comparison of two distinct objects of which one is an array. *)
Lemma datum_eq_array (a b : datum) :
  item_id (d_item a) <> item_id (d_item b) ->
  item_is_array (d_item a) = true \/ item_is_array (d_item b) = true ->
  datum_eq a b = Raise ValueError.
Proof.
  intros Hid Harr. unfold datum_eq, item_eq.
  replace (item_id (d_item a) =? item_id (d_item b))%nat with false
    by (symmetry; now apply Nat.eqb_neq).
  replace (item_is_array (d_item a) || item_is_array (d_item b)) with true;
    [reflexivity|].
  symmetry. apply orb_true_iff. exact Harr.
Qed.

(** Two tuples are always compared. *)
Lemma datum_eq_tuples (a b : datum) :
  item_is_array (d_item a) = false -> item_is_array (d_item b) = false ->
  exists equal, datum_eq a b = Ok equal.
Proof.
  intros Ha Hb. unfold datum_eq, item_eq. rewrite Ha, Hb.
  destruct (item_id (d_item a) =? item_id (d_item b))%nat; simpl; eauto.
Qed.

Lemma py_in_true (d : datum) (l : list datum) :
  py_in d l = Ok true -> exists e, In e l /\ datum_eq e d = Ok true.
Proof.
  induction l as [|e l IH]; simpl; [discriminate|].
  destruct (datum_eq e d) as [[|]|err] eqn:E; simpl; [| |discriminate].
  - intros _. exists e. split; [now left | exact E].
  - intros H. destruct (IH H) as [e' [He' Heq]]. exists e'. split; [now right | exact Heq].
Qed.

Lemma py_in_false (d : datum) (l : list datum) :
  py_in d l = Ok false -> forall e, In e l -> datum_eq e d = Ok false.
Proof.
  induction l as [|e l IH]; simpl; [intros _ e' []|].
  destruct (datum_eq e d) as [[|]|err] eqn:E; simpl; [discriminate| |discriminate].
  intros H e' [<-|He']; [exact E | now apply IH].
Qed.

Lemma py_in_tuples (d : datum) (l : list datum) :
  item_is_array (d_item d) = false ->
  (forall e, In e l -> item_is_array (d_item e) = false) ->
  exists found, py_in d l = Ok found.
Proof.
  intros Hd. induction l as [|e l IH]; intros Hl; simpl; [eauto|].
  destruct (datum_eq_tuples e d) as [[|] ->]; simpl; eauto.
  - apply Hl. now left.
  - apply IH. intros e' He'. apply Hl. now right.
Qed.

(** When [d not in spanning] has a value, it is the negation of the
    spanning test. *)
Lemma py_in_spanning (full_width : Z) (data : list datum) (d : datum)
  (found : bool) :
  In d data ->
  py_in d (filter (is_spanning full_width) data) = Ok found ->
  found = is_spanning full_width d.
Proof.
  intros Hd H. destruct found.
  - apply py_in_true in H. destruct H as [e [He Heq]].
    apply filter_In in He. destruct He as [_ Hp].
    unfold is_spanning in *. now rewrite <- (datum_eq_w _ _ Heq).
  - destruct (is_spanning full_width d) eqn:E; [|reflexivity].
    assert (Hin : In d (filter (is_spanning full_width) data))
      by (apply filter_In; now split).
    pose proof (py_in_false _ _ H d Hin) as Hf.
    rewrite datum_eq_same in Hf. discriminate.
Qed.

Lemma filter_with_spec {A : Type} (p : A -> result bool) (q : A -> bool)
  (l r : list A) :
  (forall a keep, In a l -> p a = Ok keep -> keep = q a) ->
  filter_with p l = Ok r -> r = filter q l.
Proof.
  revert r. induction l as [|a l IH]; intros r Hp H; simpl in *.
  - now injection H as <-.
  - destruct (p a) as [keep|e] eqn:E; simpl in H; [|discriminate].
    destruct (filter_with p l) as [rest|e] eqn:Er; simpl in H; [|discriminate].
    injection H as <-.
    rewrite <- (Hp a keep (or_introl eq_refl) E).
    rewrite (IH rest); [reflexivity| |reflexivity].
    intros a' keep' Ha'. apply Hp. now right.
Qed.

Lemma filter_with_pure {A : Type} (p : A -> result bool) (q : A -> bool)
  (l : list A) :
  (forall a, In a l -> p a = Ok (q a)) -> filter_with p l = Ok (filter q l).
Proof.
  induction l as [|a l IH]; intros Hp; simpl; [reflexivity|].
  rewrite (Hp a) by now left. simpl.
  rewrite IH by (intros a' Ha'; apply Hp; now right). reflexivity.
Qed.

(** What the separation returns, when it returns. *)
Lemma separate_spanning_eq (data : list datum) (full_width : Z)
  (separated : list datum * list datum) :
  separate_spanning data full_width = Ok separated ->
  separated =
  if (length (filter (fun d => negb (is_spanning full_width d)) data) <? 2)%nat
  then (data, [])
  else (filter (fun d => negb (is_spanning full_width d)) data,
        filter (is_spanning full_width) data).
Proof.
  unfold separate_spanning.
  destruct (filter_with _ data) as [remaining|e] eqn:E; simpl; [|discriminate].
  apply (filter_with_spec _ (fun d => negb (is_spanning full_width d))) in E.
  - subst remaining. destruct (length _ <? 2)%nat; now intros [= <-].
  - intros d keep Hd H.
    destruct (py_in d (filter (is_spanning full_width) data)) as [found|e] eqn:Ein;
      simpl in H; [|discriminate].
    injection H as <-. now rewrite (py_in_spanning _ _ _ _ Hd Ein).
Qed.

(** On tuples the separation always returns. *)
Lemma separate_spanning_tuples (data : list datum) (full_width : Z) :
  (forall d, In d data -> item_is_array (d_item d) = false) ->
  exists separated, separate_spanning data full_width = Ok separated.
Proof.
  intros Ht. unfold separate_spanning.
  rewrite (filter_with_pure _ (fun d => negb (is_spanning full_width d))).
  - simpl. destruct (length _ <? 2)%nat; eauto.
  - intros d Hd.
    destruct (py_in_tuples d (filter (is_spanning full_width) data)) as [found E].
    + now apply Ht.
    + intros e He. apply filter_In in He. apply Ht. now destruct He.
    + rewrite E. simpl. now rewrite (py_in_spanning _ _ _ _ Hd E).
Qed.

(** So it does when no panel passes the spanning test: nothing is
    compared. *)
Lemma separate_spanning_none (data : list datum) (full_width : Z) :
  filter (is_spanning full_width) data = [] ->
  separate_spanning data full_width = Ok (data, []).
Proof.
  intros Hnone. unfold separate_spanning. rewrite Hnone.
  rewrite (filter_with_pure _ (fun _ => true)) by reflexivity.
  simpl. assert (E : filter (fun _ : datum => true) data = data).
  { clear. induction data as [|d data IH]; simpl; [reflexivity | now rewrite IH]. }
  rewrite E. now destruct (length data <? 2)%nat.
Qed.

Lemma separate_spanning_perm (data : list datum) (full_width : Z)
  (remaining spanning : list datum) :
  separate_spanning data full_width = Ok (remaining, spanning) ->
  Permutation data (remaining ++ spanning).
Proof.
  intros H. apply separate_spanning_eq in H.
  destruct (length _ <? 2)%nat; injection H as -> ->.
  - now rewrite app_nil_r.
  - apply filter_split_perm.
Qed.

Lemma separate_spanning_length (data : list datum) (full_width : Z)
  (remaining spanning : list datum) :
  separate_spanning data full_width = Ok (remaining, spanning) ->
  (2 <= length data)%nat -> (2 <= length remaining)%nat.
Proof.
  intros H Hlen. apply separate_spanning_eq in H.
  destruct (length _ <? 2)%nat eqn:E; injection H as -> ->.
  - exact Hlen.
  - apply Nat.ltb_ge in E. exact E.
Qed.

End LayoutFacts.

Section SplitMerge.
Context {FO : FloatOps} {PF : PyFloat FO}.

Lemma gaps_of_length (x_centers : list float) :
  length (gaps_of x_centers) = (length x_centers - 1)%nat.
Proof. unfold gaps_of. now rewrite length_map, length_seq. Qed.

Lemma gaps_of_index (x_centers : list float) (g : float * nat) :
  In g (gaps_of x_centers) -> (snd g + 1 < length x_centers)%nat.
Proof.
  unfold gaps_of. intros H. apply in_map_iff in H.
  destruct H as [i [<- Hi]]. apply in_seq in Hi. simpl. lia.
Qed.

Lemma split_idx_of_lt (x_centers : list float) :
  (2 <= length x_centers)%nat ->
  (split_idx_of (gaps_of x_centers) + 1 < length x_centers)%nat.
Proof.
  intros H. pose proof (gaps_of_length x_centers) as Hl.
  unfold split_idx_of.
  destruct (gaps_of x_centers) as [|g gaps] eqn:E; [simpl in Hl; lia|].
  apply gaps_of_index. rewrite E. apply max_by_in.
Qed.

(** With two panels or more to split, both reads of [x_centers] succeed. *)
Lemma split_x_of_ok (x_centers : list float) :
  (2 <= length x_centers)%nat -> exists split_x, split_x_of x_centers = Ok split_x.
Proof.
  intros H. pose proof (split_idx_of_lt x_centers H) as Hi.
  unfold split_x_of.
  destruct (list_get_lt x_centers (split_idx_of (gaps_of x_centers))) as [a ->];
    [lia|].
  destruct (list_get_lt x_centers (split_idx_of (gaps_of x_centers) + 1))
    as [b ->]; [lia|].
  simpl. eauto.
Qed.

(** With a single one, [x_centers[split_idx + 1]] is out of range. *)
Lemma split_x_of_single (a : float) : split_x_of [a] = Raise IndexError.
Proof. reflexivity. Qed.

Lemma merge_by_y_top_cons (n : datum) (ns : list datum) (s : datum) (sp : list datum) :
  merge_by_y_top (n :: ns) (s :: sp) =
  if d_y_top s <? d_y_top n
  then d_item s :: merge_by_y_top (n :: ns) sp
  else d_item n :: merge_by_y_top ns (s :: sp).
Proof. reflexivity. Qed.

Lemma merge_by_y_top_nil_r (ns : list datum) :
  merge_by_y_top ns [] = map d_item ns.
Proof. destruct ns; simpl; [reflexivity | now rewrite app_nil_r]. Qed.

Lemma merge_by_y_top_perm (ns : list datum) :
  forall sp, Permutation (map d_item ns ++ map d_item sp) (merge_by_y_top ns sp).
Proof.
  induction ns as [|n ns IHn]; intros sp; [reflexivity|].
  induction sp as [|s sp IHs].
  - rewrite merge_by_y_top_nil_r. simpl. now rewrite app_nil_r.
  - rewrite merge_by_y_top_cons. destruct (d_y_top s <? d_y_top n).
    + rewrite <- IHs. simpl. symmetry.
      apply (Permutation_middle (d_item n :: map d_item ns) (map d_item sp)).
    + simpl. apply perm_skip. apply (IHn (s :: sp)).
Qed.

Lemma non_spanning_of_columns (remaining : list datum) (split_x : float)
  (rtl_order : bool) :
  non_spanning_of (columns_of remaining split_x rtl_order) =
  if rtl_order
  then sorted_by Z.ltb d_y_top (right_group_of remaining split_x) ++
       sorted_by Z.ltb d_y_top (left_group_of remaining split_x)
  else sorted_by Z.ltb d_y_top (left_group_of remaining split_x) ++
       sorted_by Z.ltb d_y_top (right_group_of remaining split_x).
Proof.
  unfold non_spanning_of, columns_of.
  destruct rtl_order; simpl; now rewrite app_nil_r.
Qed.

Lemma columns_perm (remaining : list datum) (split_x : float) :
  Permutation remaining
    (left_group_of remaining split_x ++ right_group_of remaining split_x).
Proof.
  unfold left_group_of, right_group_of.
  apply (filter_split_perm (fun d => fge (d_x_center d) split_x)).
Qed.

Lemma non_spanning_perm (remaining : list datum) (split_x : float)
  (rtl_order : bool) :
  Permutation remaining (non_spanning_of (columns_of remaining split_x rtl_order)).
Proof.
  rewrite non_spanning_of_columns, (columns_perm remaining split_x) at 1.
  destruct rtl_order.
  - rewrite Permutation_app_comm.
    apply Permutation_app; apply sorted_by_perm.
  - apply Permutation_app; apply sorted_by_perm.
Qed.

(** The body of the function past the separation of the spanning panels. *)
Lemma sort_panels_unfold (items : list item) (rtl_order : bool)
  (remaining0 spanning : list datum) :
  items <> [] ->
  separate_spanning (gather items) (max_x2_of items) = Ok (remaining0, spanning) ->
  sort_panels_by_column_then_row items rtl_order =
  let remaining := sorted_by flt d_x_center remaining0 in
  split_x <- split_x_of (map d_x_center remaining) ;;
  Ok (merge_by_y_top (non_spanning_of (columns_of remaining split_x rtl_order))
        (sorted_by Z.ltb d_y_top spanning)).
Proof.
  destruct items as [|it items]; [intros H; now elim H|]. intros _ E.
  unfold sort_panels_by_column_then_row. now rewrite E.
Qed.

Lemma sort_panels_separation_raises (items : list item) (rtl_order : bool)
  (e : exn) :
  items <> [] ->
  separate_spanning (gather items) (max_x2_of items) = Raise e ->
  sort_panels_by_column_then_row items rtl_order = Raise e.
Proof.
  destruct items as [|it items]; [intros H; now elim H|]. intros _ E.
  unfold sort_panels_by_column_then_row. now rewrite E.
Qed.

Lemma split_after_separation (items : list item) (rtl_order : bool)
  (separated : list datum * list datum) :
  (2 <= length items)%nat ->
  separate_spanning (gather items) (max_x2_of items) = Ok separated ->
  exists merged, sort_panels_by_column_then_row items rtl_order = Ok merged.
Proof.
  intros H E. destruct separated as [remaining0 spanning].
  assert (Hne : items <> []) by (destruct items; [simpl in H; lia | discriminate]).
  rewrite (sort_panels_unfold _ _ _ _ Hne E). cbv zeta.
  destruct (split_x_of_ok (map d_x_center (sorted_by flt d_x_center remaining0)))
    as [split_x ->].
  - rewrite length_map, sorted_by_length.
    apply (separate_spanning_length _ _ _ _ E).
    unfold gather. now rewrite length_map.
  - simpl. eauto.
Qed.

(** X9.  With two panels or more, of coordinates that convert to
    floats, once the spanning panels have been separated without an
    exception, the rest of [sort_panels_by_column_then_row] raises
    nothing: at least two panels are left to split, both reads
    [x_centers[split_idx]] and [x_centers[split_idx + 1]] are in range,
    and a sequence is returned. *)
Lemma sort_panels_returns (items : list item) (rtl_order : bool)
  (remaining0 spanning0 : list datum) :
  (2 <= length items)%nat ->
  in_float_range items ->
  separate_spanning (gather items) (max_x2_of items) = Ok (remaining0, spanning0) ->
  let x_centers := map d_x_center (sorted_by flt d_x_center remaining0) in
  (2 <= length x_centers)%nat /\
  (split_idx_of (gaps_of x_centers) + 1 < length x_centers)%nat /\
  (exists a b,
     list_get x_centers (split_idx_of (gaps_of x_centers)) = Ok a /\
     list_get x_centers (split_idx_of (gaps_of x_centers) + 1) = Ok b) /\
  exists merged, sort_panels_by_column_then_row items rtl_order = Ok merged.
Proof.
  intros H _ E x_centers.
  assert (Hlen : (2 <= length x_centers)%nat).
  { unfold x_centers. rewrite length_map, sorted_by_length.
    apply (separate_spanning_length _ _ _ _ E).
    unfold gather. now rewrite length_map. }
  pose proof (split_idx_of_lt x_centers Hlen) as Hidx.
  split; [exact Hlen|]. split; [exact Hidx|]. split.
  - destruct (list_get_lt x_centers (split_idx_of (gaps_of x_centers)))
      as [a Ha]; [lia|].
    destruct (list_get_lt x_centers (split_idx_of (gaps_of x_centers) + 1))
      as [b Hb]; [lia|].
    exists a, b. now split.
  - assert (Hne : items <> [])
      by (destruct items; [simpl in H; lia | discriminate]).
    rewrite (sort_panels_unfold _ _ _ _ Hne E). cbv zeta.
    destruct (split_x_of_ok x_centers Hlen) as [split_x Hsx].
    fold x_centers. rewrite Hsx. simpl. eauto.
Qed.

(** X15.  Two or more rectangle tuples, of coordinates that convert to
    floats, are always sorted: the separation compares tuples of
    numbers, which raises nothing, and a sequence is returned. *)
Lemma sort_panels_returns_on_tuples (items : list item) (rtl_order : bool) :
  (2 <= length items)%nat ->
  in_float_range items ->
  (forall it, In it items -> item_is_array it = false) ->
  exists merged, sort_panels_by_column_then_row items rtl_order = Ok merged.
Proof.
  intros H _ Ht.
  destruct (separate_spanning_tuples (gather items) (max_x2_of items))
    as [separated E].
  - intros d Hd. unfold gather in Hd. apply in_map_iff in Hd.
    destruct Hd as [it [<- Hit]]. simpl. now apply Ht.
  - exact (split_after_separation items rtl_order separated H E).
Qed.

Lemma sort_panels_empty (rtl_order : bool) :
  sort_panels_by_column_then_row [] rtl_order = Ok [].
Proof. reflexivity. Qed.

End SplitMerge.

Lemma fold_left_max_spec (l : list Z) :
  forall a,
    a <= fold_left Z.max l a /\
    (forall b, In b l -> b <= fold_left Z.max l a) /\
    (fold_left Z.max l a = a \/ In (fold_left Z.max l a) l).
Proof.
  induction l as [|c l IH]; intros a; simpl.
  - split; [lia|]. split; [intros b []|now left].
  - destruct (IH (Z.max a c)) as [H1 [H2 H3]].
    split; [lia|]. split.
    + intros b [<-|Hb]; [lia | now apply H2].
    + destruct H3 as [H3|H3]; [|right; now right].
      rewrite H3. destruct (Z.max_spec a c) as [[_ ->]|[_ ->]]; auto.
Qed.

(** [page_width] is the largest [x + w] among the panels. *)
Lemma page_width_spec (items : list item) :
  items <> [] ->
  (forall it, In it items -> item_x it + item_w it <= page_width items) /\
  (exists it, In it items /\ page_width items = item_x it + item_w it).
Proof.
  destruct items as [|it0 items]; [intros H; now elim H|]. intros _.
  unfold page_width.
  destruct (fold_left_max_spec
              (map (fun it' => item_x it' + item_w it') items)
              (item_x it0 + item_w it0)) as [H1 [H2 H3]].
  split.
  - intros it [<-|Hit]; [exact H1|].
    apply H2. apply in_map_iff. now exists it.
  - destruct H3 as [H3|H3].
    + exists it0. split; [now left | exact H3].
    + apply in_map_iff in H3. destruct H3 as [it [Hit Hin]].
      exists it. split; [now right | now symmetry].
Qed.

Section LayoutClaims.
Context {FO : FloatOps} {PF : PyFloat FO}.

(** C1, at the input the code fails on.  A single panel never comes
    back: whatever its rectangle and the reading direction, the read of
    [x_centers[split_idx + 1]] raises [IndexError]. *)
Theorem sort_panels_single_panel_raises (it : item) (rtl_order : bool) :
  sort_panels_by_column_then_row [it] rtl_order = Raise IndexError.
Proof.
  assert (E : separate_spanning (gather [it]) (max_x2_of [it])
              = Ok ([datum_of it], [])).
  { unfold separate_spanning. simpl.
    destruct (is_spanning _ _); simpl; [|reflexivity].
    rewrite datum_eq_same. reflexivity. }
  assert (Hne : [it] <> []) by discriminate.
  rewrite (sort_panels_unfold _ _ _ _ Hne E). reflexivity.
Qed.

(** C2 (amended).  In the merge loop, when the next spanning panel and
    the next column panel have the same [y_top], the column panel is
    placed first and the spanning panel stays the next one to merge. *)
Theorem merge_tie_column_first (n : datum) (non_spanning : list datum)
  (s : datum) (spanning_sorted : list datum) :
  d_y_top s = d_y_top n ->
  merge_by_y_top (n :: non_spanning) (s :: spanning_sorted) =
  d_item n :: merge_by_y_top non_spanning (s :: spanning_sorted).
Proof.
  intros H. rewrite merge_by_y_top_cons.
  replace (d_y_top s <? d_y_top n) with false; [reflexivity|].
  symmetry. apply Z.ltb_ge. lia.
Qed.

Lemma max_x2_of_page_width (items : list item) :
  items <> [] -> max_x2_of items = Z.max 0 (page_width items).
Proof.
  destruct items as [|it items]; [intros H; now elim H|]. intros _.
  unfold max_x2_of, page_width. simpl.
  generalize (item_x it + item_w it). generalize 0.
  induction items as [|it' items IH]; intros a b; simpl; [reflexivity|].
  rewrite <- Z.max_assoc. apply IH.
Qed.

Lemma gather_datum (items : list item) (d : datum) :
  In d (gather items) -> d = datum_of (d_item d) /\ In (d_item d) items.
Proof.
  unfold gather. intros H. apply in_map_iff in H.
  destruct H as [it [<- Hit]]. simpl. now split.
Qed.

(** The spanning test of the code and the test against the page width
    agree on panels of positive width. *)
Lemma is_spanning_is_wide (items : list item) (d : datum) :
  items <> [] ->
  (forall it, In it items -> 0 < item_w it) ->
  In d (gather items) ->
  is_spanning (max_x2_of items) d = is_wide items d.
Proof.
  intros Hne Hw Hd. unfold is_spanning, is_wide.
  rewrite max_x2_of_page_width by assumption.
  destruct (Z.max_spec 0 (page_width items)) as [[_ ->]|[Hneg ->]];
    [reflexivity|].
  apply gather_datum in Hd. destruct Hd as [Hd Hin].
  assert (Hwd : 0 < d_w d) by (rewrite Hd; simpl; now apply Hw).
  assert (H0 : fle (of_int 0) (of_int (d_w d)) = true)
    by (apply of_int_mono; lia).
  unfold fge. transitivity true; [|symmetry].
  - apply fle_trans with (of_int 0); [|exact H0].
    apply fmul_nonpos_nonneg; [apply fle_refl | apply lit_0_6_nonneg].
  - apply fle_trans with (of_int 0); [|exact H0].
    apply fmul_nonpos_nonneg; [apply of_int_mono; lia | apply lit_0_6_nonneg].
Qed.

(** X14.  On panels of positive width, whenever [separate_spanning]
    returns, it has put a panel in [spanning] exactly when its width is
    at least 0.6 times the page width, the largest [x + w] of the input,
    and the others in [remaining], unless fewer than two panels were
    left in [remaining]: then all panels are [remaining] and [spanning]
    is empty.  On tuples it always returns. *)
Theorem separate_spanning_threshold (items : list item) :
  items <> [] ->
  (forall it, In it items -> 0 < item_w it) ->
  (forall separated,
     separate_spanning (gather items) (max_x2_of items) = Ok separated ->
     separated =
     if (length (filter (fun d => negb (is_wide items d)) (gather items)) <? 2)%nat
     then (gather items, [])
     else (filter (fun d => negb (is_wide items d)) (gather items),
           filter (is_wide items) (gather items))) /\
  ((forall it, In it items -> item_is_array it = false) ->
   exists separated,
     separate_spanning (gather items) (max_x2_of items) = Ok separated).
Proof.
  intros Hne Hw. split.
  - intros separated H. apply separate_spanning_eq in H. rewrite H.
    rewrite (filter_ext_in _ (is_wide items) _
               (fun d Hd => is_spanning_is_wide items d Hne Hw Hd)).
    rewrite (filter_ext_in (fun d => negb (is_spanning (max_x2_of items) d))
               (fun d => negb (is_wide items d))).
    + reflexivity.
    + intros d Hd. now rewrite (is_spanning_is_wide items d Hne Hw Hd).
  - intros Ht. apply separate_spanning_tuples.
    intros d Hd. apply gather_datum in Hd. destruct Hd as [-> Hin].
    simpl. now apply Ht.
Qed.

(** C6, on the inputs the code fails on.  For two contours or more,
    distinct objects, of which one passes the spanning test, the
    membership test [d not in spanning] compares two arrays: the
    separation raises [ValueError], and so does the sort in either
    reading direction; neither the classification nor the fallback of
    the claim is reached. *)
Theorem separate_spanning_contours_raise (items : list item) :
  (2 <= length items)%nat ->
  NoDup (map item_id items) ->
  (forall it, In it items -> item_is_array it = true) ->
  (exists it, In it items /\
     is_spanning (max_x2_of items) (datum_of it) = true) ->
  separate_spanning (gather items) (max_x2_of items) = Raise ValueError /\
  forall rtl_order,
    sort_panels_by_column_then_row items rtl_order = Raise ValueError.
Proof.
  intros Hlen Hdup Harr [wide_it [Hin Hwide]].
  assert (Hsep : separate_spanning (gather items) (max_x2_of items)
                 = Raise ValueError).
  { destruct items as [|it1 [|it2 items]]; [simpl in Hlen; lia | simpl in Hlen; lia|].
    remember (max_x2_of (it1 :: it2 :: items)) as full_width eqn:Hfw.
    inversion Hdup as [|? ? Hnot1 Hdup']. subst.
    change (gather (it1 :: it2 :: items))
      with (datum_of it1 :: gather (it2 :: items)).
    remember (gather (it2 :: items)) as data' eqn:Hdata'.
    assert (Hd2 : exists rest, data' = datum_of it2 :: rest)
      by (rewrite Hdata'; simpl; eauto).
    assert (Hids : forall d, In d data' ->
              item_id (d_item d) <> item_id it1 /\
              item_is_array (d_item d) = true).
    { intros d Hd. rewrite Hdata' in Hd. apply gather_datum in Hd.
      destruct Hd as [_ Hd]. split.
      - intros Heq. apply Hnot1. rewrite <- Heq.
        change (item_id it2 :: map item_id items)
          with (map item_id (it2 :: items)).
        now apply in_map.
      - apply Harr. now right. }
    unfold separate_spanning. cbn [filter].
    destruct (is_spanning (max_x2_of (it1 :: it2 :: items)) (datum_of it1)) eqn:E1.
    - destruct Hd2 as [rest ->].
      cbn [filter_with py_in bind]. rewrite datum_eq_same. cbn [bind negb].
      rewrite datum_eq_array; [reflexivity| |].
      + simpl. intros Heq.
        destruct (Hids (datum_of it2) (or_introl eq_refl)) as [Hn _].
        apply Hn. simpl. now symmetry.
      + left. simpl. apply Harr. now left.
    - destruct Hin as [<-|Hin]; [congruence|].
      assert (Hs : In (datum_of wide_it)
                     (filter (is_spanning (max_x2_of (it1 :: it2 :: items))) data')).
      { apply filter_In. split; [|exact Hwide].
        rewrite Hdata'. unfold gather. now apply in_map. }
      destruct (filter (is_spanning (max_x2_of (it1 :: it2 :: items))) data')
        as [|s1 sp] eqn:Ef; [contradiction|].
      assert (Hs1 : In s1 data').
      { assert (H : In s1 (s1 :: sp)) by now left.
        rewrite <- Ef in H. apply filter_In in H. now destruct H. }
      destruct (Hids s1 Hs1) as [Hn Ha].
      cbn [filter_with py_in bind].
      rewrite datum_eq_array; [reflexivity| |].
      + simpl. exact Hn.
      + left. exact Ha. }
  split; [exact Hsep|]. intros rtl_order.
  apply sort_panels_separation_raises; [|exact Hsep].
  destruct items; [simpl in Hlen; lia | discriminate].
Qed.

(** C8.  Whenever [sort_panels_by_column_then_row] returns, what it
    returns is a permutation of its input: the same items, each with the
    identity it came with, as many times as it came. *)
Theorem sort_panels_permutation (items : list item) (rtl_order : bool)
  (merged : list item) :
  sort_panels_by_column_then_row items rtl_order = Ok merged ->
  Permutation items merged /\
  length merged = length items /\
  (forall it, In it merged -> In it items).
Proof.
  intros H.
  assert (P : Permutation items merged).
  { destruct items as [|it0 items0]; [simpl in H; injection H as <-; constructor|].
    assert (Hne : it0 :: items0 <> []) by discriminate.
    destruct (separate_spanning (gather (it0 :: items0)) (max_x2_of (it0 :: items0)))
      as [[remaining0 spanning]|e] eqn:E.
    2:{ rewrite (sort_panels_separation_raises _ _ _ Hne E) in H. discriminate. }
    rewrite (sort_panels_unfold _ _ _ _ Hne E) in H.
    cbv zeta in H.
    destruct (split_x_of _) as [split_x|]; simpl in H; [|discriminate].
    injection H as <-.
    rewrite <- merge_by_y_top_perm, <- map_app.
    rewrite <- (gather_items (it0 :: items0)).
    apply Permutation_map.
    rewrite (separate_spanning_perm _ _ _ _ E).
    apply Permutation_app; [|apply sorted_by_perm].
    rewrite <- non_spanning_perm. apply sorted_by_perm. }
  split; [exact P|]. split.
  - symmetry. now apply Permutation_length.
  - intros it Hit. apply Permutation_in with merged; [now symmetry | exact Hit].
Qed.

End LayoutClaims.

Section ColumnOrder.
Context {FO : FloatOps} {PF : PyFloat FO}.

Lemma sorted_map_item (l : list datum) :
  (forall d, In d l -> d_y_top d = item_y (d_item d)) ->
  Sorted (key_le d_y_top) l -> Sorted (key_le item_y) (map d_item l).
Proof.
  intros Hy Hs. induction Hs as [|d l Hs IH Hhd]; simpl; constructor.
  - apply IH. intros d' Hd'. apply Hy. now right.
  - destruct Hhd as [|d' l' Hle]; simpl; constructor.
    unfold key_le in *.
    rewrite <- (Hy d) by now left.
    rewrite <- (Hy d') by (right; now left). exact Hle.
Qed.

End ColumnOrder.


(** *** [sort_panels_by_column_then_row] on the sample pages *)

(** A page made of one panel is refused. *)
Example sort_panels_one_panel :
  sort_panels_by_column_then_row (FO := QOps) [mk_item 0 0 0 100 150] false
  = Raise IndexError.
Proof. vm_compute. reflexivity. Qed.

Example sort_panels_quadrants_ltr :
  sort_panels_by_column_then_row (FO := QOps) quadrants false =
    Ok [top_left; bottom_left; top_right; bottom_right].
Proof. vm_compute. reflexivity. Qed.

(** C2, as stated, fails: [wide] spans the page and [right_small] is the
    next column panel, both with [y_top = 0], and the merge places
    [right_small] first; so does the whole sort, read right to left. *)
Lemma merge_tie_spanning_not_first :
  d_y_top (datum_of (FO := QOps) wide) = d_y_top (datum_of (FO := QOps) right_small) /\
  merge_by_y_top (FO := QOps)
    [datum_of right_small; datum_of lower_right; datum_of lower_left]
    [datum_of wide]
  = [right_small; wide; lower_right; lower_left] /\
  merge_by_y_top (FO := QOps)
    [datum_of right_small; datum_of lower_right; datum_of lower_left]
    [datum_of wide]
  <> wide ::
     merge_by_y_top (FO := QOps)
       [datum_of right_small; datum_of lower_right; datum_of lower_left] [] /\
  sort_panels_by_column_then_row (FO := QOps) tie_page true =
    Ok [right_small; wide; lower_right; lower_left].
Proof.
  split; [reflexivity|]. split; [vm_compute; reflexivity|].
  split; [vm_compute; discriminate|]. vm_compute. reflexivity.
Qed.

Lemma merge_tie_column_first_witness :
  d_y_top (datum_of (FO := QOps) wide) = d_y_top (datum_of (FO := QOps) right_small) /\
  merge_by_y_top (FO := QOps)
    (datum_of right_small :: [datum_of lower_right; datum_of lower_left])
    (datum_of wide :: [])
  = d_item (datum_of (FO := QOps) right_small) ::
    merge_by_y_top (FO := QOps)
      [datum_of lower_right; datum_of lower_left] (datum_of wide :: []).
Proof.
  split; [reflexivity|].
  apply (merge_tie_column_first (FO := QOps) (datum_of right_small)
           [datum_of lower_right; datum_of lower_left] (datum_of wide) []).
  reflexivity.
Defined.

(** [wide] alone reaches 0.6 times the page width of [tie_page]; on
    [banner_page] a single panel stays below it, so none is spanning. *)
Example separate_spanning_samples :
  page_width tie_page = 100 /\
  separate_spanning (FO := QOps) (gather tie_page) (max_x2_of tie_page)
  = Ok (map datum_of [right_small; lower_left; lower_right], [datum_of wide]) /\
  separate_spanning (FO := QOps) (gather banner_page) (max_x2_of banner_page)
  = Ok (gather banner_page, []).
Proof. repeat split; vm_compute; reflexivity. Qed.

Lemma separate_spanning_threshold_witness :
  tie_page <> [] /\
  (forall it, In it tie_page -> 0 < item_w it) /\
  (forall separated,
     separate_spanning (FO := QOps) (gather tie_page) (max_x2_of tie_page)
     = Ok separated ->
     separated =
     if (length (filter (fun d => negb (is_wide tie_page d)) (gather tie_page)) <? 2)%nat
     then (gather tie_page, [])
     else (filter (fun d => negb (is_wide tie_page d)) (gather tie_page),
           filter (is_wide tie_page) (gather tie_page))) /\
  ((forall it, In it tie_page -> item_is_array it = false) ->
   exists separated,
     separate_spanning (FO := QOps) (gather tie_page) (max_x2_of tie_page)
     = Ok separated).
Proof.
  split; [discriminate|]. split; [by_cases_in|].
  apply (separate_spanning_threshold (FO := QOps) tie_page);
    [discriminate | by_cases_in].
Defined.

(** The two contours of [contour_page]: the first passes the spanning
    test, and comparing the second with it raises. *)
Lemma separate_spanning_contours_raise_witness :
  (2 <= length contour_page)%nat /\
  NoDup (map item_id contour_page) /\
  (forall it, In it contour_page -> item_is_array it = true) /\
  (exists it, In it contour_page /\
     is_spanning (FO := QOps) (max_x2_of contour_page) (datum_of it) = true) /\
  separate_spanning (FO := QOps) (gather contour_page) (max_x2_of contour_page)
    = Raise ValueError /\
  forall rtl_order,
    sort_panels_by_column_then_row (FO := QOps) contour_page rtl_order
    = Raise ValueError.
Proof.
  assert (Hdup : NoDup (map item_id contour_page)).
  { simpl. constructor; [simpl; intros [H|[]]; discriminate|].
    constructor; [intros []|constructor]. }
  assert (Hwide : exists it, In it contour_page /\
            is_spanning (FO := QOps) (max_x2_of contour_page) (datum_of it) = true).
  { exists (mk_contour 40 0 0 100 50). split; [now left | vm_compute; reflexivity]. }
  split; [simpl; lia|]. split; [exact Hdup|]. split; [by_cases_in|].
  split; [exact Hwide|].
  apply (separate_spanning_contours_raise (FO := QOps) contour_page);
    [simpl; lia | exact Hdup | by_cases_in | exact Hwide].
Defined.

(** The same two rectangles given as tuples are sorted: a single panel
    fails the spanning test, so both are taken as column panels. *)
Example sort_panels_contour_page_as_tuples :
  separate_spanning (FO := QOps)
    (gather [mk_item 40 0 0 100 50; mk_item 41 0 60 40 50]) 100
  = Ok (gather [mk_item 40 0 0 100 50; mk_item 41 0 60 40 50], []) /\
  sort_panels_by_column_then_row (FO := QOps)
    [mk_item 40 0 0 100 50; mk_item 41 0 60 40 50] false
  = Ok [mk_item 41 0 60 40 50; mk_item 40 0 0 100 50].
Proof. split; vm_compute; reflexivity. Qed.


Lemma sort_panels_permutation_witness :
  sort_panels_by_column_then_row (FO := QOps) quadrants true =
    Ok [top_right; bottom_right; top_left; bottom_left] /\
  Permutation quadrants [top_right; bottom_right; top_left; bottom_left] /\
  length [top_right; bottom_right; top_left; bottom_left] = length quadrants /\
  (forall it, In it [top_right; bottom_right; top_left; bottom_left] ->
     In it quadrants).
Proof.
  split; [vm_compute; reflexivity|].
  apply (sort_panels_permutation (FO := QOps) quadrants true).
  vm_compute. reflexivity.
Defined.

(** * Further properties *)

(** ** More on the float order *)

Section FloatFactsMore.
Context {FO : FloatOps} {PF : PyFloat FO}.

Lemma flt_fle_trans (a b c : float) :
  flt a b = true -> fle b c = true -> flt a c = true.
Proof.
  unfold flt. intros H1 H2. apply negb_true_iff. apply negb_true_iff in H1.
  destruct (fle c a) eqn:E; [|reflexivity].
  rewrite (fle_trans b c a H2 E) in H1. discriminate.
Qed.

Lemma fle_flt_trans (a b c : float) :
  fle a b = true -> flt b c = true -> flt a c = true.
Proof.
  unfold flt. intros H1 H2. apply negb_true_iff. apply negb_true_iff in H2.
  destruct (fle c a) eqn:E; [|reflexivity].
  rewrite (fle_trans c a b E H1) in H2. discriminate.
Qed.

Lemma fgt_false_fle (a b : float) : fgt a b = false -> fle a b = true.
Proof. unfold fgt, flt. intros H. now apply negb_false_iff in H. Qed.

End FloatFactsMore.

(** ** [_find_best_border_line]: when it raises *)

Lemma np_index_raise (n : nat) (i : Z) (e : exn) :
  np_index n i = Raise e -> ~ (- Z.of_nat n <= i < Z.of_nat n).
Proof.
  intros H Hb. destruct (np_index_valid n i Hb) as [k [Hk _]]. congruence.
Qed.

Lemma np_index_outside (n : nat) (i : Z) :
  ~ (- Z.of_nat n <= i < Z.of_nat n) -> np_index n i = Raise IndexError.
Proof.
  intros H. unfold np_index.
  destruct ((0 <=? i) && (i <? Z.of_nat n)) eqn:E1.
  - apply andb_true_iff in E1. destruct E1 as [A B].
    apply Z.leb_le in A. apply Z.ltb_lt in B. lia.
  - destruct ((- Z.of_nat n <=? i) && (i <? 0)) eqn:E2; [|reflexivity].
    apply andb_true_iff in E2. destruct E2 as [A B].
    apply Z.leb_le in A. apply Z.ltb_lt in B. lia.
Qed.

Section RaiseFacts.
Context {FO : FloatOps} {PF : PyFloat FO}.

Lemma score_at_raise_iff (m : ndarray) (axis : Z) (r : py_range) (i : Z) :
  score_at m axis r i = Raise IndexError <->
  ~ (- Z.of_nat (scan_dim m axis) <= i < Z.of_nat (scan_dim m axis)).
Proof.
  unfold score_at, continuity, scan_dim. split.
  - intros H. destruct (axis =? 1).
    + destruct (np_index (shape0 m) i) as [k|e] eqn:E; simpl in H; [discriminate|].
      now apply np_index_raise in E.
    + destruct (np_index (shape1 m) i) as [k|e] eqn:E; simpl in H; [discriminate|].
      now apply np_index_raise in E.
  - intros H. destruct (axis =? 1); now rewrite (np_index_outside _ _ H).
Qed.

Lemma score_at_raise (m : ndarray) (axis : Z) (r : py_range) (i : Z) (e : exn) :
  score_at m axis r i = Raise e -> e = IndexError.
Proof.
  unfold score_at, continuity, np_index.
  destruct (axis =? 1);
    repeat match goal with
           | |- context [if ?b then _ else _] => destruct b
           end; simpl; congruence.
Qed.

Lemma scan_loop_raise_index (m : ndarray) (axis : Z) (r : py_range) (l : list Z) :
  forall st e, scan_loop m axis r l st = Raise e -> e = IndexError.
Proof.
  induction l as [|j l IH]; intros st e H; simpl in H; [discriminate|].
  unfold scan_step in H.
  destruct (score_at m axis r j) as [s|e'] eqn:Hs; simpl in H.
  - destruct (fge s (snd st)); simpl in H; eapply IH; eauto.
  - injection H as <-. now apply score_at_raise in Hs.
Qed.

Lemma find_best_border_line_raise_index (m : ndarray) (axis : Z) (r : py_range)
  (e : exn) :
  _find_best_border_line m axis r = Raise e -> e = IndexError.
Proof.
  unfold _find_best_border_line.
  destruct (total_span r =? 0); [discriminate|].
  destruct (scan_loop m axis r (range_elems r) (start r, of_int (-1)))
    as [st|e'] eqn:E; simpl; [discriminate|].
  intros [= <-]. now apply scan_loop_raise_index in E.
Qed.

Lemma scan_loop_raise (m : ndarray) (axis : Z) (r : py_range) (l : list Z) :
  forall st e, scan_loop m axis r l st = Raise e ->
  exists i, In i l /\ score_at m axis r i = Raise IndexError.
Proof.
  induction l as [|j l IH]; intros st e H; simpl in H; [discriminate|].
  unfold scan_step in H.
  destruct (score_at m axis r j) as [s|e'] eqn:Hs; simpl in H.
  - destruct (fge s (snd st)); simpl in H;
      destruct (IH _ _ H) as [i [Hi Hr]]; exists i; split; auto; now right.
  - exists j. split; [now left|]. now rewrite <- (score_at_raise _ _ _ _ _ Hs).
Qed.

Lemma scan_loop_raises (m : ndarray) (axis : Z) (r : py_range) (l : list Z) (i : Z) :
  In i l -> score_at m axis r i = Raise IndexError ->
  forall st, scan_loop m axis r l st = Raise IndexError.
Proof.
  induction l as [|j l IH]; intros Hi Hr st; [contradiction|].
  simpl. unfold scan_step.
  destruct (score_at m axis r j) as [s|e'] eqn:Hs; simpl.
  - destruct Hi as [->|Hi]; [congruence|].
    destruct (fge s (snd st)); simpl; now apply IH.
  - now rewrite (score_at_raise _ _ _ _ _ Hs).
Qed.

(** X1.  [_find_best_border_line] raises [IndexError] exactly when one
    of the scanned indices is not a valid index of the mask; it returns
    an index in every other case. *)
Theorem find_best_border_line_raises_iff (roi_mask : ndarray) (axis : Z)
  (scan_range : py_range) :
  (_find_best_border_line roi_mask axis scan_range = Raise IndexError <->
   exists i, In i (range_elems scan_range) /\
     ~ (- Z.of_nat (scan_dim roi_mask axis) <= i
        < Z.of_nat (scan_dim roi_mask axis))) /\
  (in_bounds roi_mask axis scan_range <->
   exists best, _find_best_border_line roi_mask axis scan_range = Ok best).
Proof.
  assert (Hraise :
    _find_best_border_line roi_mask axis scan_range = Raise IndexError <->
    exists i, In i (range_elems scan_range) /\
      ~ (- Z.of_nat (scan_dim roi_mask axis) <= i
         < Z.of_nat (scan_dim roi_mask axis))).
  { unfold _find_best_border_line. split.
    - intros H. destruct (total_span scan_range =? 0); [discriminate|].
      destruct (scan_loop roi_mask axis scan_range (range_elems scan_range)
                  (start scan_range, of_int (-1))) as [st|e] eqn:E;
        simpl in H; [discriminate|].
      destruct (scan_loop_raise _ _ _ _ _ _ E) as [i [Hi Hr]].
      exists i. split; [exact Hi|]. now apply score_at_raise_iff in Hr.
    - intros [i [Hi Hout]].
      assert (Hne : range_elems scan_range <> [])
        by (intros E; rewrite E in Hi; contradiction).
      pose proof (nonempty_positive_span _ Hne) as Hs.
      fold (total_span scan_range) in Hs.
      destruct (total_span scan_range =? 0) eqn:E; [apply Z.eqb_eq in E; lia|].
      rewrite (scan_loop_raises _ _ _ _ i Hi); [reflexivity|].
      now apply score_at_raise_iff. }
  split; [exact Hraise|]. split.
  - intros Hb.
    assert (Hcases :
      (exists best, _find_best_border_line roi_mask axis scan_range = Ok best) \/
      _find_best_border_line roi_mask axis scan_range = Raise IndexError)
      by (destruct (_find_best_border_line roi_mask axis scan_range) as [b|e] eqn:E;
          [eauto | right; now rewrite (find_best_border_line_raise_index _ _ _ _ E)]).
    destruct Hcases as [H|H]; [exact H|].
    apply Hraise in H. destruct H as [i [Hi Hout]].
    elim Hout. now apply Hb.
  - intros [best Hbest] i Hi.
    destruct (Z_le_dec (- Z.of_nat (scan_dim roi_mask axis)) i) as [L|L];
      [destruct (Z_lt_dec i (Z.of_nat (scan_dim roi_mask axis))) as [U|U]|].
    + lia.
    + assert (Hr : _find_best_border_line roi_mask axis scan_range = Raise IndexError)
        by (apply Hraise; exists i; split; [exact Hi | lia]).
      congruence.
    + assert (Hr : _find_best_border_line roi_mask axis scan_range = Raise IndexError)
        by (apply Hraise; exists i; split; [exact Hi | lia]).
      congruence.
Qed.

End RaiseFacts.

(** ** [_find_best_border_line]: which line wins *)

Lemma np_index_lt (n : nat) (i : Z) (k : nat) :
  np_index n i = Ok k -> (k < n)%nat.
Proof.
  unfold np_index.
  destruct ((0 <=? i) && (i <? Z.of_nat n)) eqn:E.
  - apply andb_true_iff in E. destruct E as [E0 E1].
    apply Z.leb_le in E0. apply Z.ltb_lt in E1. intros [= <-]. lia.
  - destruct ((- Z.of_nat n <=? i) && (i <? 0)) eqn:E'; [|discriminate].
    apply andb_true_iff in E'. destruct E' as [E0 E1].
    apply Z.leb_le in E0. apply Z.ltb_lt in E1. intros [= <-]. lia.
Qed.

Lemma count_nonzero_ext (f g : nat -> Z) (l : list nat) :
  (forall k, In k l -> (f k =? 0) = (g k =? 0)) ->
  count_nonzero (map f l) = count_nonzero (map g l).
Proof.
  unfold count_nonzero. intros H. f_equal.
  induction l as [|k l IH]; simpl; [reflexivity|].
  rewrite (H k) by now left.
  destruct (g k =? 0); simpl; [|f_equal]; apply IH; intros j Hj; apply H; now right.
Qed.

Lemma continuity_same_ink (m1 m2 : ndarray) (axis i : Z) :
  same_ink m1 m2 -> continuity m1 axis i = continuity m2 axis i.
Proof.
  intros [H0 [H1 Hpx]]. unfold continuity. rewrite <- H0, <- H1.
  destruct (axis =? 1).
  - destruct (np_index (shape0 m1) i) as [k|e] eqn:E; simpl; [|reflexivity].
    apply np_index_lt in E. f_equal. unfold row. rewrite <- H1.
    apply count_nonzero_ext. intros c Hc. apply in_seq in Hc. apply Hpx; lia.
  - destruct (np_index (shape1 m1) i) as [k|e] eqn:E; simpl; [|reflexivity].
    apply np_index_lt in E. f_equal. unfold col. rewrite <- H0.
    apply count_nonzero_ext. intros r Hr. apply in_seq in Hr. apply Hpx; lia.
Qed.

Section WinningLine.
Context {FO : FloatOps} {PF : PyFloat FO}.

(** A line without any skeleton pixel scores at most 0. *)
Lemma blank_score_nonpos (r : py_range) (i : Z) :
  0 < total_span r -> fle (score r 0 i) (of_int 0) = true.
Proof.
  intros Hs. unfold score. apply fmul_nonpos_nonneg; [apply fle_refl|].
  apply fadd_nonneg.
  - apply of_int_mono. lia.
  - apply fdiv_nonneg; [apply of_int_mono; lia | now apply of_int_pos].
Qed.

(** The winner of an in-bounds, non-empty scan, with its continuity. *)
Lemma find_best_border_line_winner (roi_mask : ndarray) (axis : Z)
  (scan_range : py_range) :
  range_elems scan_range <> [] ->
  in_bounds roi_mask axis scan_range ->
  exists best c,
    _find_best_border_line roi_mask axis scan_range = Ok best /\
    In best (range_elems scan_range) /\
    continuity roi_mask axis best = Ok c /\ 0 <= c /\
    forall j cj, In j (range_elems scan_range) ->
      continuity roi_mask axis j = Ok cj ->
      fle (score scan_range cj j) (score scan_range c best) = true.
Proof.
  intros Hne Hb.
  assert (Hsc : forall i, In i (range_elems scan_range) ->
            score_at roi_mask axis scan_range i =
            Ok (score_or_zero roi_mask axis scan_range i)).
  { intros i Hi. unfold score_or_zero.
    destruct (score_at_in_bounds roi_mask axis scan_range i (Hb i Hi)) as [s ->].
    reflexivity. }
  destruct (argmax_last_scan _ _ _ _ Hne Hsc)
    as [best [pre [post [Hbest [Hl [Hmax _]]]]]].
  assert (Hin : In best (range_elems scan_range)).
  { rewrite Hl. apply in_or_app. right. now left. }
  destruct (continuity_in_bounds roi_mask axis best (Hb best Hin)) as [c Hc].
  exists best, c.
  split; [rewrite (find_best_border_line_fold _ _ _ _ Hne Hsc); now rewrite Hbest|].
  split; [exact Hin|]. split; [exact Hc|].
  split; [now apply continuity_nonneg in Hc|].
  intros j cj Hj Hcj. pose proof (Hmax j Hj) as H.
  unfold score_or_zero, score_at in H. now rewrite Hcj, Hc in H.
Qed.

(** X2.  When every scanned index is valid and some scanned line has a
    score above 0, the line that [_find_best_border_line] returns holds
    at least one skeleton pixel: a blank line never wins against a line
    with ink. *)
Theorem find_best_border_line_not_blank (roi_mask : ndarray) (axis : Z)
  (scan_range : py_range) (j : Z) (sj : float) :
  in_bounds roi_mask axis scan_range ->
  In j (range_elems scan_range) ->
  score_at roi_mask axis scan_range j = Ok sj ->
  flt (of_int 0) sj = true ->
  exists best c,
    _find_best_border_line roi_mask axis scan_range = Ok best /\
    continuity roi_mask axis best = Ok c /\ 0 < c.
Proof.
  intros Hb Hj Hsj Hpos.
  assert (Hne : range_elems scan_range <> [])
    by (intros E; rewrite E in Hj; contradiction).
  pose proof (nonempty_positive_span _ Hne) as Hs.
  fold (total_span scan_range) in Hs.
  destruct (find_best_border_line_winner _ _ _ Hne Hb)
    as [best [c [Hbest [Hin [Hc [Hc0 Hmax]]]]]].
  exists best, c. split; [exact Hbest|]. split; [exact Hc|].
  destruct (Z.eq_dec c 0) as [->|Hnz]; [exfalso|lia].
  unfold score_at in Hsj.
  destruct (continuity roi_mask axis j) as [cj|] eqn:Hcj; simpl in Hsj;
    [|discriminate].
  injection Hsj as <-.
  apply (flt_not_fle (of_int 0) (score scan_range cj j) Hpos).
  apply fle_trans with (score scan_range 0 best).
  - now apply Hmax.
  - now apply blank_score_nonpos.
Qed.

(** X3.  When a single scanned line holds skeleton pixels, every other
    scanned line being blank, and its score is above 0,
    [_find_best_border_line] returns the index of that line, wherever
    the line lies in the scan. *)
Theorem find_best_border_line_lone_line (roi_mask : ndarray) (axis : Z)
  (scan_range : py_range) (line c : Z) :
  in_bounds roi_mask axis scan_range ->
  In line (range_elems scan_range) ->
  continuity roi_mask axis line = Ok c ->
  (forall i, In i (range_elems scan_range) -> i <> line ->
     continuity roi_mask axis i = Ok 0) ->
  flt (of_int 0) (score scan_range c line) = true ->
  _find_best_border_line roi_mask axis scan_range = Ok line.
Proof.
  intros Hb Hline Hc Hblank Hpos.
  assert (Hne : range_elems scan_range <> [])
    by (intros E; rewrite E in Hline; contradiction).
  pose proof (nonempty_positive_span _ Hne) as Hs.
  fold (total_span scan_range) in Hs.
  destruct (find_best_border_line_winner _ _ _ Hne Hb)
    as [best [cb [Hbest [Hin [Hcb [_ Hmax]]]]]].
  destruct (Z.eq_dec best line) as [->|Hneq]; [exact Hbest|].
  exfalso. rewrite (Hblank best Hin Hneq) in Hcb. injection Hcb as <-.
  apply (flt_not_fle (of_int 0) (score scan_range c line) Hpos).
  apply fle_trans with (score scan_range 0 best).
  - now apply Hmax.
  - now apply blank_score_nonpos.
Qed.

Lemma scan_loop_same_ink (m1 m2 : ndarray) (axis : Z) (r : py_range) (l : list Z) :
  same_ink m1 m2 ->
  forall st, scan_loop m1 axis r l st = scan_loop m2 axis r l st.
Proof.
  intros H. induction l as [|i l IH]; intros st; simpl; [reflexivity|].
  unfold scan_step, score_at. rewrite (continuity_same_ink m1 m2 axis i H).
  destruct (continuity m2 axis i) as [c|e]; simpl; [|reflexivity].
  destruct (fge (score r c i) (snd st)); simpl; apply IH.
Qed.

(** X4.  [_find_best_border_line] looks at the mask only through which
    pixels are zero: two masks of the same shape with the same zero
    pixels give the same result, error included, whatever the values of
    their other pixels. *)
Theorem find_best_border_line_same_ink (m1 m2 : ndarray) (axis : Z)
  (scan_range : py_range) :
  same_ink m1 m2 ->
  _find_best_border_line m1 axis scan_range =
  _find_best_border_line m2 axis scan_range.
Proof.
  intros H. unfold _find_best_border_line.
  destruct (total_span scan_range =? 0); [reflexivity|].
  now rewrite (scan_loop_same_ink m1 m2 axis scan_range _ H).
Qed.

End WinningLine.

Lemma find_best_border_line_not_blank_witness :
  in_bounds ring_mask 1 (range 2 (-1) (-1)) /\
  In 1 (range_elems (range 2 (-1) (-1))) /\
  score_at (FO := QOps) ring_mask 1 (range 2 (-1) (-1)) 1 =
    Ok (inject_Z 6 * (inject_Z 1 + inject_Z 1 / inject_Z 3))%Q /\
  flt (FO := QOps) (of_int 0)
    (inject_Z 6 * (inject_Z 1 + inject_Z 1 / inject_Z 3))%Q = true /\
  exists best c,
    _find_best_border_line (FO := QOps) ring_mask 1 (range 2 (-1) (-1)) = Ok best /\
    continuity ring_mask 1 best = Ok c /\ 0 < c.
Proof.
  split; [in_bounds_by_cases|]. split; [vm_compute; auto|].
  split; [reflexivity|]. split; [reflexivity|].
  apply (find_best_border_line_not_blank (FO := QOps) ring_mask 1
           (range 2 (-1) (-1)) 1
           (inject_Z 6 * (inject_Z 1 + inject_Z 1 / inject_Z 3))%Q);
    [in_bounds_by_cases | vm_compute; auto | reflexivity | reflexivity].
Defined.

Lemma find_best_border_line_lone_line_witness :
  in_bounds bar_mask 1 (range 2 (-1) (-1)) /\
  In 1 (range_elems (range 2 (-1) (-1))) /\
  continuity bar_mask 1 1 = Ok 8 /\
  (forall i, In i (range_elems (range 2 (-1) (-1))) -> i <> 1 ->
     continuity bar_mask 1 i = Ok 0) /\
  flt (FO := QOps) (of_int 0) (score (range 2 (-1) (-1)) 8 1) = true /\
  _find_best_border_line (FO := QOps) bar_mask 1 (range 2 (-1) (-1)) = Ok 1.
Proof.
  assert (Hblank : forall i, In i (range_elems (range 2 (-1) (-1))) -> i <> 1 ->
            continuity bar_mask 1 i = Ok 0).
  { intros i Hi Hneq. vm_compute in Hi.
    destruct Hi as [<-|[<-|[<-|[]]]]; [reflexivity | now elim Hneq | reflexivity]. }
  split; [in_bounds_by_cases|]. split; [vm_compute; auto|].
  split; [reflexivity|]. split; [exact Hblank|]. split; [reflexivity|].
  apply (find_best_border_line_lone_line (FO := QOps) bar_mask 1
           (range 2 (-1) (-1)) 1 8);
    [in_bounds_by_cases | vm_compute; auto | reflexivity | exact Hblank
    | reflexivity].
Defined.

Lemma find_best_border_line_same_ink_witness :
  same_ink bar_mask faint_bar_mask /\
  _find_best_border_line (FO := QOps) bar_mask 1 (range 2 (-1) (-1)) =
  _find_best_border_line (FO := QOps) faint_bar_mask 1 (range 2 (-1) (-1)).
Proof.
  assert (H : same_ink bar_mask faint_bar_mask).
  { split; [reflexivity|]. split; [reflexivity|].
    intros r c _ _. simpl. destruct (r =? 1)%nat; reflexivity. }
  split; [exact H|].
  apply (find_best_border_line_same_ink (FO := QOps) bar_mask faint_bar_mask 1
           (range 2 (-1) (-1)) H).
Defined.

(** ** [remove_border]: the crop window *)

Section ScanResult.
Context {FO : FloatOps} {PF : PyFloat FO}.

Lemma find_best_border_line_member (roi_mask : ndarray) (axis : Z)
  (scan_range : py_range) (i : Z) :
  range_elems scan_range <> [] ->
  _find_best_border_line roi_mask axis scan_range = Ok i ->
  In i (range_elems scan_range).
Proof.
  intros Hne Hi.
  pose proof (nonempty_positive_span _ Hne) as Hs.
  fold (total_span scan_range) in Hs.
  assert (Hok : forall j, In j (range_elems scan_range) ->
            exists s, score_at roi_mask axis scan_range j = Ok s).
  { unfold _find_best_border_line in Hi.
    destruct (total_span scan_range =? 0) eqn:E; [apply Z.eqb_eq in E; lia|].
    destruct (scan_loop roi_mask axis scan_range (range_elems scan_range)
                (start scan_range, of_int (-1))) as [st|] eqn:Hl; [|discriminate].
    eapply scan_loop_ok; eauto. }
  assert (Hsc : forall j, In j (range_elems scan_range) ->
            score_at roi_mask axis scan_range j =
            Ok (score_or_zero roi_mask axis scan_range j)).
  { intros j Hj. unfold score_or_zero. destruct (Hok j Hj) as [s ->]. reflexivity. }
  destruct (argmax_last_scan _ _ _ _ Hne Hsc) as [best [pre [post [Hb [Hl _]]]]].
  rewrite (find_best_border_line_fold _ _ _ _ Hne Hsc), Hb in Hi.
  injection Hi as <-. rewrite Hl. apply in_or_app. right. now left.
Qed.

(** Whatever the range, a returned index is [start] or lies between
    [start] and [stop]. *)
Lemma find_best_border_line_between (roi_mask : ndarray) (axis : Z)
  (scan_range : py_range) (i : Z) :
  _find_best_border_line roi_mask axis scan_range = Ok i ->
  i = start scan_range \/
  start scan_range <= i < stop scan_range \/
  stop scan_range < i <= start scan_range.
Proof.
  intros Hi.
  destruct (range_elems scan_range) as [|j l] eqn:E.
  - left. unfold _find_best_border_line in Hi. rewrite E in Hi. simpl in Hi.
    destruct (total_span scan_range =? 0); now injection Hi as <-.
  - right. apply range_elems_between.
    apply (find_best_border_line_member roi_mask axis); [|exact Hi].
    rewrite E. discriminate.
Qed.

Lemma find_best_border_line_returns (roi_mask : ndarray) (axis : Z)
  (scan_range : py_range) :
  in_bounds roi_mask axis scan_range ->
  exists best, _find_best_border_line roi_mask axis scan_range = Ok best.
Proof.
  intros Hb. unfold _find_best_border_line.
  destruct (total_span scan_range =? 0); [eauto|].
  rewrite (scan_loop_pure _ _ _ (score_or_zero roi_mask axis scan_range)).
  - simpl. eauto.
  - intros i Hi. unfold score_or_zero.
    destruct (score_at_in_bounds roi_mask axis scan_range i (Hb i Hi)) as [s ->].
    reflexivity.
Qed.

Lemma find_best_border_line_outside (roi_mask : ndarray) (axis : Z)
  (scan_range : py_range) (i : Z) :
  In i (range_elems scan_range) ->
  ~ (- Z.of_nat (scan_dim roi_mask axis) <= i < Z.of_nat (scan_dim roi_mask axis)) ->
  _find_best_border_line roi_mask axis scan_range = Raise IndexError.
Proof.
  intros Hi Hout.
  assert (Hne : range_elems scan_range <> [])
    by (intros E; rewrite E in Hi; contradiction).
  pose proof (nonempty_positive_span _ Hne) as Hs.
  fold (total_span scan_range) in Hs.
  unfold _find_best_border_line.
  destruct (total_span scan_range =? 0) eqn:E; [apply Z.eqb_eq in E; lia|].
  rewrite (scan_loop_raises _ _ _ _ i Hi); [reflexivity|].
  now apply score_at_raise_iff.
Qed.

End ScanResult.

Section CropWindow.
Context {FO : FloatOps} {PF : PyFloat FO}.
Variables image contour : Type.
Variable img_shape : image -> nat * nat.
Variable copyMakeBorder : image -> nat -> image.
Variable findContours : image -> list contour.
Variable contourArea : contour -> float.
Variable boundingRect : contour -> Z * Z * Z * Z.
Variable skeleton_of : image -> contour -> nat -> ndarray.
Variable img_slice : image -> Z -> Z -> Z -> Z -> image.

(** X5.  Whenever the crop coordinates are computed for a search zone
    that is not negative, each border lies inside its search zone: the
    crop window stays within the bounding rectangle of the contour,
    shrunk by [padding] on every side, and reaches into it by the depth
    of the search zone at most. *)
Theorem crop_coordinates_in_zone (padded_image : image) (largest_contour : contour)
  (search_zone_ratio : float) (padding x y w h x1 y1 x2 y2 : Z) :
  boundingRect largest_contour = (x, y, w, h) ->
  0 <= ftrunc (fmul (of_int h) search_zone_ratio) ->
  0 <= ftrunc (fmul (of_int w) search_zone_ratio) ->
  crop_coordinates image contour boundingRect skeleton_of padded_image
    largest_contour search_zone_ratio padding = Ok (x1, y1, x2, y2) ->
  x + padding <= x1 <= x + ftrunc (fmul (of_int w) search_zone_ratio) + padding /\
  y + padding <= y1 <= y + ftrunc (fmul (of_int h) search_zone_ratio) + padding /\
  x + w - ftrunc (fmul (of_int w) search_zone_ratio) - padding <= x2 <= x + w - padding /\
  y + h - ftrunc (fmul (of_int h) search_zone_ratio) - padding <= y2 <= y + h - padding.
Proof.
  intros Hrect Hte Hle H. unfold crop_coordinates in H. rewrite Hrect in H.
  cbv beta iota zeta in H.
  destruct (_find_best_border_line _ 1 (range (ftrunc (fmul (of_int h) search_zone_ratio)) (-1) (-1)))
    as [best_top_y|] eqn:Etop; simpl in H; [|discriminate].
  destruct (_find_best_border_line _ 1 (range (h - ftrunc (fmul (of_int h) search_zone_ratio)) h 1))
    as [best_bottom_y|] eqn:Ebot; simpl in H; [|discriminate].
  destruct (_find_best_border_line _ 0 (range (ftrunc (fmul (of_int w) search_zone_ratio)) (-1) (-1)))
    as [best_left_x|] eqn:Eleft; simpl in H; [|discriminate].
  destruct (_find_best_border_line _ 0 (range (w - ftrunc (fmul (of_int w) search_zone_ratio)) w 1))
    as [best_right_x|] eqn:Eright; simpl in H; [|discriminate].
  injection H as <- <- <- <-.
  apply find_best_border_line_between in Etop, Ebot, Eleft, Eright.
  simpl in Etop, Ebot, Eleft, Eright. lia.
Qed.

(** X6.  When the bounding rectangle lies inside the skeleton canvas and
    both search zones are shallower than the rectangle, none of the four
    scans leaves the region of interest: the crop coordinates are
    computed and nothing is raised. *)
Theorem crop_coordinates_returns (padded_image : image) (largest_contour : contour)
  (search_zone_ratio : float) (padding x y w h : Z) :
  boundingRect largest_contour = (x, y, w, h) ->
  0 <= x -> 0 <= y ->
  y + h <= Z.of_nat (shape0 (skeleton_of padded_image largest_contour 5)) ->
  x + w <= Z.of_nat (shape1 (skeleton_of padded_image largest_contour 5)) ->
  0 <= ftrunc (fmul (of_int h) search_zone_ratio) < h ->
  0 <= ftrunc (fmul (of_int w) search_zone_ratio) < w ->
  exists coords,
    crop_coordinates image contour boundingRect skeleton_of padded_image
      largest_contour search_zone_ratio padding = Ok coords.
Proof.
  intros Hrect Hx Hy Hh Hw Hte Hle. unfold crop_coordinates. rewrite Hrect.
  cbv beta iota zeta.
  set (roi_mask := np_slice _ _ _ _ _).
  assert (H0 : Z.of_nat (shape0 roi_mask) = h) by (unfold roi_mask; simpl; lia).
  assert (H1 : Z.of_nat (shape1 roi_mask) = w) by (unfold roi_mask; simpl; lia).
  assert (Hrow : forall r, (forall i, In i (range_elems r) -> 0 <= i < h) ->
            in_bounds roi_mask 1 r).
  { intros r Hr i Hi. unfold scan_dim. change (1 =? 1) with true. cbv iota.
    rewrite H0. specialize (Hr i Hi). lia. }
  assert (Hcol : forall r, (forall i, In i (range_elems r) -> 0 <= i < w) ->
            in_bounds roi_mask 0 r).
  { intros r Hr i Hi. unfold scan_dim. change (0 =? 1) with false. cbv iota.
    rewrite H1. specialize (Hr i Hi). lia. }
  destruct (find_best_border_line_returns roi_mask 1
              (range (ftrunc (fmul (of_int h) search_zone_ratio)) (-1) (-1)))
    as [best_top_y ->].
  { apply Hrow. intros i Hi. apply range_elems_between in Hi. simpl in Hi. lia. }
  destruct (find_best_border_line_returns roi_mask 1
              (range (h - ftrunc (fmul (of_int h) search_zone_ratio)) h 1))
    as [best_bottom_y ->].
  { apply Hrow. intros i Hi. apply range_elems_between in Hi. simpl in Hi. lia. }
  destruct (find_best_border_line_returns roi_mask 0
              (range (ftrunc (fmul (of_int w) search_zone_ratio)) (-1) (-1)))
    as [best_left_x ->].
  { apply Hcol. intros i Hi. apply range_elems_between in Hi. simpl in Hi. lia. }
  destruct (find_best_border_line_returns roi_mask 0
              (range (w - ftrunc (fmul (of_int w) search_zone_ratio)) w 1))
    as [best_right_x ->].
  { apply Hcol. intros i Hi. apply range_elems_between in Hi. simpl in Hi. lia. }
  simpl. eauto.
Qed.

(** X7.  On an image of 30 pixels or more each way in which a contour is
    found, a search zone as deep as the height of the bounding rectangle
    (a ratio of 1, for one) makes the first scan read the row just past
    the region of interest: [remove_border] raises [IndexError] instead
    of returning an image. *)
Theorem remove_border_zone_too_deep (img : image) (c : contour)
  (contours : list contour) (search_zone_ratio : float) (padding x y w h : Z) :
  (30 <= fst (img_shape img))%nat -> (30 <= snd (img_shape img))%nat ->
  findContours (copyMakeBorder img 15) = c :: contours ->
  boundingRect (max_by contourArea c contours) = (x, y, w, h) ->
  0 <= y -> 0 <= h ->
  h <= ftrunc (fmul (of_int h) search_zone_ratio) ->
  remove_border image contour img_shape copyMakeBorder findContours contourArea
    boundingRect skeleton_of img_slice (Some img) search_zone_ratio padding
  = Raise IndexError.
Proof.
  intros Hs0 Hs1 Hc Hrect Hy Hh Hte. unfold remove_border.
  replace ((fst (img_shape img) <? 30)%nat || (snd (img_shape img) <? 30)%nat)
    with false.
  2:{ symmetry. apply orb_false_iff. split; now apply Nat.ltb_ge. }
  rewrite Hc. unfold crop_coordinates. rewrite Hrect. cbv beta iota zeta.
  set (roi_mask := np_slice _ _ _ _ _).
  rewrite (find_best_border_line_outside roi_mask 1 _
             (ftrunc (fmul (of_int h) search_zone_ratio))); [reflexivity| |].
  - assert (Hne : range_elems
              (range (ftrunc (fmul (of_int h) search_zone_ratio)) (-1) (-1)) <> []).
    { apply range_elems_nonempty_iff. cbn [step stop start]. lia. }
    apply range_elems_hd in Hne. simpl start in Hne.
    destruct (range_elems _) as [|j l]; [discriminate|].
    injection Hne as ->. now left.
  - unfold scan_dim, roi_mask. simpl. lia.
Qed.

(** X8.  What [remove_border] returns is either its input or a crop of
    the padded image, taken on a window with [x1 < x2] and [y1 < y2] and
    at least 10 pixels high and wide; the input was then at least 30
    pixels each way. *)
Theorem remove_border_result (panel_image result_image : option image)
  (search_zone_ratio : float) (padding : Z) :
  remove_border image contour img_shape copyMakeBorder findContours contourArea
    boundingRect skeleton_of img_slice panel_image search_zone_ratio padding
  = Ok result_image ->
  result_image = panel_image \/
  exists img c contours x1 y1 x2 y2,
    panel_image = Some img /\
    (30 <= fst (img_shape img))%nat /\ (30 <= snd (img_shape img))%nat /\
    findContours (copyMakeBorder img 15) = c :: contours /\
    crop_coordinates image contour boundingRect skeleton_of
      (copyMakeBorder img 15) (max_by contourArea c contours)
      search_zone_ratio padding = Ok (x1, y1, x2, y2) /\
    x1 < x2 /\ y1 < y2 /\
    result_image = Some (img_slice (copyMakeBorder img 15) y1 y2 x1 x2) /\
    (10 <= fst (img_shape (img_slice (copyMakeBorder img 15) y1 y2 x1 x2)))%nat /\
    (10 <= snd (img_shape (img_slice (copyMakeBorder img 15) y1 y2 x1 x2)))%nat.
Proof.
  unfold remove_border. intros H.
  destruct panel_image as [img|]; [|left; now injection H as <-].
  destruct ((fst (img_shape img) <? 30)%nat || (snd (img_shape img) <? 30)%nat)
    eqn:Eshape; [left; now injection H as <-|].
  apply orb_false_iff in Eshape. destruct Eshape as [Es0 Es1].
  apply Nat.ltb_ge in Es0. apply Nat.ltb_ge in Es1.
  destruct (findContours (copyMakeBorder img 15)) as [|c contours] eqn:Ec;
    [left; now injection H as <-|].
  destruct (crop_coordinates _ _ _ _ _ _ _ _) as [[[[x1 y1] x2] y2]|] eqn:Ecoords;
    simpl in H; [|discriminate].
  destruct ((x1 >=? x2) || (y1 >=? y2)) eqn:Edeg; [left; now injection H as <-|].
  apply orb_false_iff in Edeg. destruct Edeg as [Ex Ey].
  destruct ((fst (img_shape (img_slice (copyMakeBorder img 15) y1 y2 x1 x2)) <? 10)%nat
            || (snd (img_shape (img_slice (copyMakeBorder img 15) y1 y2 x1 x2)) <? 10)%nat)
    eqn:Etiny; [left; now injection H as <-|].
  apply orb_false_iff in Etiny. destruct Etiny as [Et0 Et1].
  apply Nat.ltb_ge in Et0. apply Nat.ltb_ge in Et1.
  right. exists img, c, contours, x1, y1, x2, y2.
  injection H as <-.
  repeat (split; [first [assumption | reflexivity | lia]|]);
    first [assumption | reflexivity | lia].
Qed.

End CropWindow.

(** The framed 40x40 panel, padded to 70x70, with its frame at
    [(15, 15, 40, 40)]. *)
Lemma crop_coordinates_in_zone_witness :
  toy_boundingRect (15, 15, 40, 40) = (15, 15, 40, 40) /\
  0 <= ftrunc (fmul (FloatOps := QOps) (of_int 40) (25 # 100)%Q) /\
  toy_crop_coordinates (toy_copyMakeBorder framed_panel 15) (15, 15, 40, 40)
    (25 # 100)%Q 5 = Ok (20, 20, 49, 49) /\
  15 + 5 <= 20 <= 15 + ftrunc (fmul (FloatOps := QOps) (of_int 40) (25 # 100)%Q) + 5 /\
  15 + 5 <= 20 <= 15 + ftrunc (fmul (FloatOps := QOps) (of_int 40) (25 # 100)%Q) + 5 /\
  15 + 40 - ftrunc (fmul (FloatOps := QOps) (of_int 40) (25 # 100)%Q) - 5 <= 49
    <= 15 + 40 - 5 /\
  15 + 40 - ftrunc (fmul (FloatOps := QOps) (of_int 40) (25 # 100)%Q) - 5 <= 49
    <= 15 + 40 - 5.
Proof.
  split; [reflexivity|]. split; [now vm_compute|]. split; [vm_compute; reflexivity|].
  apply (crop_coordinates_in_zone (FO := QOps) toy_image (Z * Z * Z * Z)
           toy_boundingRect toy_skeleton_of (toy_copyMakeBorder framed_panel 15)
           (15, 15, 40, 40) (25 # 100)%Q 5 15 15 40 40 20 20 49 49);
    [reflexivity | now vm_compute | now vm_compute | vm_compute; reflexivity].
Defined.

Lemma crop_coordinates_returns_witness :
  toy_boundingRect (15, 15, 40, 40) = (15, 15, 40, 40) /\
  15 + 40 <= Z.of_nat (shape0 (toy_skeleton_of (toy_copyMakeBorder framed_panel 15)
                                 (15, 15, 40, 40) 5)) /\
  15 + 40 <= Z.of_nat (shape1 (toy_skeleton_of (toy_copyMakeBorder framed_panel 15)
                                 (15, 15, 40, 40) 5)) /\
  0 <= ftrunc (fmul (FloatOps := QOps) (of_int 40) (25 # 100)%Q) < 40 /\
  exists coords,
    toy_crop_coordinates (toy_copyMakeBorder framed_panel 15) (15, 15, 40, 40)
      (25 # 100)%Q 5 = Ok coords.
Proof.
  split; [reflexivity|]. split; [now vm_compute|]. split; [now vm_compute|].
  split; [now vm_compute|].
  apply (crop_coordinates_returns (FO := QOps) toy_image (Z * Z * Z * Z)
           toy_boundingRect toy_skeleton_of (toy_copyMakeBorder framed_panel 15)
           (15, 15, 40, 40) (25 # 100)%Q 5 15 15 40 40);
    [reflexivity | lia | lia | now vm_compute | now vm_compute
    | now vm_compute | now vm_compute].
Defined.

(** The same panel with [search_zone_ratio = 1]. *)
Lemma remove_border_zone_too_deep_witness :
  (30 <= fst (toy_shape framed_panel))%nat /\
  (30 <= snd (toy_shape framed_panel))%nat /\
  toy_findContours (toy_copyMakeBorder framed_panel 15) = [(15, 15, 40, 40)] /\
  40 <= ftrunc (fmul (FloatOps := QOps) (of_int 40) 1%Q) /\
  toy_remove_border (Some framed_panel) 1%Q 5 = Raise IndexError.
Proof.
  split; [simpl; lia|]. split; [simpl; lia|]. split; [reflexivity|].
  split; [now vm_compute|].
  apply (remove_border_zone_too_deep (FO := QOps) toy_image (Z * Z * Z * Z)
           toy_shape toy_copyMakeBorder toy_findContours toy_contourArea
           toy_boundingRect toy_skeleton_of toy_slice framed_panel
           (15, 15, 40, 40) [] 1%Q 5 15 15 40 40);
    [simpl; lia | simpl; lia | reflexivity | reflexivity | lia | lia
    | now vm_compute].
Defined.

Lemma remove_border_result_witness :
  toy_remove_border (Some framed_panel) (25 # 100)%Q 5 = Ok (Some ((29, 29)%nat, [])) /\
  (Some ((29, 29)%nat, []) = Some framed_panel \/
   exists img c contours x1 y1 x2 y2,
     Some framed_panel = Some img /\
     (30 <= fst (toy_shape img))%nat /\ (30 <= snd (toy_shape img))%nat /\
     toy_findContours (toy_copyMakeBorder img 15) = c :: contours /\
     toy_crop_coordinates (toy_copyMakeBorder img 15)
       (max_by (FO := QOps) toy_contourArea c contours) (25 # 100)%Q 5
       = Ok (x1, y1, x2, y2) /\
     x1 < x2 /\ y1 < y2 /\
     Some ((29, 29)%nat, []) = Some (toy_slice (toy_copyMakeBorder img 15) y1 y2 x1 x2) /\
     (10 <= fst (toy_shape (toy_slice (toy_copyMakeBorder img 15) y1 y2 x1 x2)))%nat /\
     (10 <= snd (toy_shape (toy_slice (toy_copyMakeBorder img 15) y1 y2 x1 x2)))%nat).
Proof.
  split; [vm_compute; reflexivity|].
  apply (remove_border_result (FO := QOps) toy_image (Z * Z * Z * Z)
           toy_shape toy_copyMakeBorder toy_findContours toy_contourArea
           toy_boundingRect toy_skeleton_of toy_slice (Some framed_panel)
           (Some ((29, 29)%nat, [])) (25 # 100)%Q 5).
  vm_compute. reflexivity.
Defined.

(** ** The merge loop *)

Lemma subseq_refl {A : Type} (l : list A) : subseq l l.
Proof. induction l; constructor; assumption. Qed.

Lemma subseq_nil_l {A : Type} (l : list A) : subseq [] l.
Proof. induction l; constructor; assumption. Qed.

Section MergeOrder.
Context {FO : FloatOps} {PF : PyFloat FO}.

Lemma merge_by_y_top_nil_l (sp : list datum) :
  merge_by_y_top [] sp = map d_item sp.
Proof. reflexivity. Qed.

Lemma merge_by_y_top_subseq_l (ns : list datum) :
  forall sp, subseq (map d_item ns) (merge_by_y_top ns sp).
Proof.
  induction ns as [|n ns IHn]; intros sp.
  - simpl map. apply subseq_nil_l.
  - induction sp as [|s sp IHs].
    + rewrite merge_by_y_top_nil_r. apply subseq_refl.
    + rewrite merge_by_y_top_cons. destruct (d_y_top s <? d_y_top n).
      * apply subseq_skip. exact IHs.
      * simpl map. apply subseq_take. apply IHn.
Qed.

Lemma merge_by_y_top_subseq_r (ns : list datum) :
  forall sp, subseq (map d_item sp) (merge_by_y_top ns sp).
Proof.
  induction ns as [|n ns IHn]; intros sp.
  - rewrite merge_by_y_top_nil_l. apply subseq_refl.
  - induction sp as [|s sp IHs].
    + simpl map. apply subseq_nil_l.
    + rewrite merge_by_y_top_cons. destruct (d_y_top s <? d_y_top n).
      * simpl map. apply subseq_take. exact IHs.
      * apply subseq_skip. apply IHn.
Qed.

(** The head of a merge is the head of one of the two lists. *)
Lemma merge_by_y_top_hd (a : item) (ns sp : list datum) :
  HdRel (key_le item_y) a (map d_item ns) ->
  HdRel (key_le item_y) a (map d_item sp) ->
  HdRel (key_le item_y) a (merge_by_y_top ns sp).
Proof.
  intros Hn Hs. destruct ns as [|n ns]; [exact Hs|].
  destruct sp as [|s sp]; [now rewrite merge_by_y_top_nil_r|].
  rewrite merge_by_y_top_cons. destruct (d_y_top s <? d_y_top n).
  - constructor. now inversion Hs.
  - constructor. now inversion Hn.
Qed.

(** X12.  The merge loop merges: when the column panels and the
    spanning panels each come by ascending [y_top], so does the merged
    sequence, which is the case of a page read as a single column. *)
Theorem merge_by_y_top_sorted (ns sp : list datum) :
  (forall d, In d (ns ++ sp) -> d_y_top d = item_y (d_item d)) ->
  Sorted (key_le d_y_top) ns ->
  Sorted (key_le d_y_top) sp ->
  Sorted (key_le item_y) (merge_by_y_top ns sp).
Proof.
  revert sp. induction ns as [|n ns IHn]; intros sp Hy Hns Hsp.
  - rewrite merge_by_y_top_nil_l. apply sorted_map_item; [|exact Hsp].
    intros d Hd. now apply Hy.
  - induction sp as [|s sp IHs].
    + rewrite merge_by_y_top_nil_r. apply sorted_map_item; [|exact Hns].
      intros d Hd. apply Hy. apply in_or_app. now left.
    + assert (Hyn : d_y_top n = item_y (d_item n))
        by (apply Hy; now left).
      assert (Hys : d_y_top s = item_y (d_item s))
        by (apply Hy; apply in_or_app; right; now left).
      rewrite merge_by_y_top_cons.
      apply Sorted_inv in Hns. destruct Hns as [Hns Hhn].
      pose proof Hsp as Hsp0.
      apply Sorted_inv in Hsp. destruct Hsp as [Hsp Hhs].
      destruct (d_y_top s <? d_y_top n) eqn:E.
      * apply Z.ltb_lt in E. constructor.
        -- apply IHs; [|exact Hsp].
           intros d Hd. apply Hy. apply in_app_or in Hd.
           destruct Hd as [Hd|Hd]; apply in_or_app; [now left | right; now right].
        -- apply merge_by_y_top_hd.
           ++ simpl. constructor. unfold key_le. lia.
           ++ destruct Hhs as [|s' sp' Hle]; simpl; constructor.
              unfold key_le in *.
              assert (d_y_top s' = item_y (d_item s'))
                by (apply Hy; apply in_or_app; right; right; now left).
              lia.
      * apply Z.ltb_ge in E. constructor.
        -- apply IHn; [|exact Hns|exact Hsp0].
           intros d Hd. apply Hy. now right.
        -- apply merge_by_y_top_hd.
           ++ destruct Hhn as [|n' ns' Hle]; simpl; constructor.
              unfold key_le in *.
              assert (d_y_top n' = item_y (d_item n'))
                by (apply Hy; right; now left).
              lia.
           ++ simpl. constructor. unfold key_le. lia.
Qed.

End MergeOrder.

(** ** The column split *)

Section FirstMax.
Context {FO : FloatOps} {PF : PyFloat FO}.

(** [max] returns the first of the elements whose key is the largest. *)
Lemma max_by_first {A : Type} (key : A -> float) (l : list A) :
  forall best, exists pre post,
    best :: l = pre ++ max_by key best l :: post /\
    (forall a, In a pre -> flt (key a) (key (max_by key best l)) = true) /\
    (forall a, In a post -> fle (key a) (key (max_by key best l)) = true).
Proof.
  induction l as [|a l IH]; intros best.
  - exists [], []. simpl. repeat split; intros a [].
  - simpl max_by.
    destruct (IH (if fgt (key a) (key best) then a else best))
      as [pre [post [Hl [Hpre Hpost]]]].
    set (m := max_by key (if fgt (key a) (key best) then a else best) l) in *.
    assert (Hm : fle (key (if fgt (key a) (key best) then a else best)) (key m) = true).
    { destruct pre as [|p pre'].
      - injection Hl as Hm _. rewrite Hm. apply fle_refl.
      - injection Hl as Hp _. apply flt_fle. apply Hpre. left. now symmetry. }
    destruct (fgt (key a) (key best)) eqn:E.
    + exists (best :: pre), post. split; [now rewrite Hl|].
      split; [|exact Hpost].
      intros b [<-|Hb]; [|now apply Hpre].
      apply flt_fle_trans with (key a); assumption.
    + apply fgt_false_fle in E.
      destruct pre as [|p pre'].
      * injection Hl as Hm' Hpost'. exists [], (a :: post).
        split; [simpl; now rewrite <- Hm', <- Hpost'|].
        split; [intros b []|].
        intros b [<-|Hb]; [now rewrite <- Hm' | now apply Hpost].
      * injection Hl as Hp Hl'. subst p.
        exists (best :: a :: pre'), post.
        split; [simpl; now rewrite Hl'|]. split; [|exact Hpost].
        intros b [<-|[<-|Hb]].
        -- apply Hpre. now left.
        -- apply fle_flt_trans with (key best); [exact E|]. apply Hpre. now left.
        -- apply Hpre. now right.
Qed.

Lemma nth_error_map_seq {A : Type} (f : nat -> A) (k p : nat) :
  (p < k)%nat -> nth_error (map f (seq 0 k)) p = Some (f p).
Proof.
  intros H. rewrite nth_error_map.
  rewrite (nth_error_nth' (seq 0 k) 0%nat) by now rewrite length_seq.
  now rewrite seq_nth.
Qed.

(** X10.  With two panels or more to split, [split_idx] is a valid
    index of a pair of neighbours in [x_centers] whose gap is the
    largest of all, and every pair before it has a strictly smaller gap:
    the columns are split at the leftmost of the widest gaps. *)
Theorem split_idx_largest_gap (x_centers : list float) :
  (2 <= length x_centers)%nat ->
  (split_idx_of (gaps_of x_centers) + 1 < length x_centers)%nat /\
  (forall j, (j + 1 < length x_centers)%nat ->
     fle (fsub (nth (j + 1) x_centers (of_int 0)) (nth j x_centers (of_int 0)))
         (fsub (nth (split_idx_of (gaps_of x_centers) + 1) x_centers (of_int 0))
               (nth (split_idx_of (gaps_of x_centers)) x_centers (of_int 0)))
     = true) /\
  (forall j, (j < split_idx_of (gaps_of x_centers))%nat ->
     flt (fsub (nth (j + 1) x_centers (of_int 0)) (nth j x_centers (of_int 0)))
         (fsub (nth (split_idx_of (gaps_of x_centers) + 1) x_centers (of_int 0))
               (nth (split_idx_of (gaps_of x_centers)) x_centers (of_int 0)))
     = true).
Proof.
  intros Hlen. split; [now apply split_idx_of_lt|].
  set (f := fun i => (fsub (nth (i + 1) x_centers (of_int 0))
                           (nth i x_centers (of_int 0)), i)).
  assert (Hg : gaps_of x_centers = map f (seq 0 (length x_centers - 1)))
    by reflexivity.
  unfold split_idx_of.
  destruct (gaps_of x_centers) as [|g gaps] eqn:E.
  { pose proof (gaps_of_length x_centers) as Hl. rewrite E in Hl. simpl in Hl. lia. }
  destruct (max_by_first fst gaps g) as [pre [post [Hl [Hpre Hpost]]]].
  set (m := max_by fst g gaps) in *.
  assert (Hin : In m (map f (seq 0 (length x_centers - 1)))).
  { rewrite <- Hg, Hl. apply in_or_app. right. now left. }
  apply in_map_iff in Hin. destruct Hin as [i [Hi Hiseq]].
  apply in_seq in Hiseq.
  assert (Hsnd : snd m = i) by now rewrite <- Hi.
  assert (Hfst : fst m = fsub (nth (i + 1) x_centers (of_int 0))
                              (nth i x_centers (of_int 0))) by now rewrite <- Hi.
  rewrite Hsnd, <- Hfst.
  assert (Hpos : length pre = i).
  { assert (Hn : nth_error (map f (seq 0 (length x_centers - 1))) (length pre)
                 = Some m).
    { rewrite <- Hg, Hl. rewrite nth_error_app2 by lia.
      now rewrite Nat.sub_diag. }
    assert (Hlt : (length pre < length x_centers - 1)%nat).
    { pose proof (f_equal (@length _) Hl) as HL. rewrite Hg in HL.
      rewrite length_map, length_seq, length_app in HL. simpl in HL. lia. }
    rewrite nth_error_map_seq in Hn by exact Hlt.
    injection Hn as Hn. rewrite <- Hn in Hsnd. simpl in Hsnd. exact Hsnd. }
  split.
  - intros j Hj.
    assert (Hin : In (f j) (pre ++ m :: post)).
    { rewrite <- Hl, Hg. apply in_map. apply in_seq. lia. }
    apply in_app_or in Hin. destruct Hin as [Hin|[Hin|Hin]].
    + apply flt_fle. exact (Hpre _ Hin).
    + replace (fst m) with (fst (f j)) by now rewrite <- Hin.
      apply fle_refl.
    + exact (Hpost _ Hin).
  - intros j Hj.
    assert (Hn : nth_error (pre ++ m :: post) j = Some (f j)).
    { rewrite <- Hl, Hg. apply nth_error_map_seq. lia. }
    rewrite nth_error_app1 in Hn by lia.
    apply nth_error_In in Hn. exact (Hpre _ Hn).
Qed.

End FirstMax.

(** ** The reading order as a whole *)

Section ReadingOrder.
Context {FO : FloatOps} {PF : PyFloat FO}.

(** For two panels or more, once the spanning panels are separated, the
    split succeeds and the result is the merge, in both reading
    directions. *)
Lemma sort_panels_structure (items : list item) (remaining0 spanning0 : list datum) :
  (2 <= length items)%nat ->
  separate_spanning (gather items) (max_x2_of items) = Ok (remaining0, spanning0) ->
  exists split_x,
    split_x_of (map d_x_center (sorted_by flt d_x_center remaining0))
      = Ok split_x /\
    forall rtl_order,
      sort_panels_by_column_then_row items rtl_order =
      Ok (merge_by_y_top
            (non_spanning_of
               (columns_of (sorted_by flt d_x_center remaining0) split_x rtl_order))
            (sorted_by Z.ltb d_y_top spanning0)).
Proof.
  intros Hlen E.
  destruct (split_x_of_ok (map d_x_center (sorted_by flt d_x_center remaining0)))
    as [split_x Hsx].
  { rewrite length_map, sorted_by_length.
    apply (separate_spanning_length _ _ _ _ E).
    unfold gather. now rewrite length_map. }
  exists split_x. split; [exact Hsx|]. intros rtl_order.
  assert (Hne : items <> [])
    by (destruct items; [simpl in Hlen; lia | discriminate]).
  rewrite (sort_panels_unfold _ _ _ _ Hne E). cbv zeta. now rewrite Hsx.
Qed.

Lemma separate_spanning_in (items : list item) (remaining0 spanning0 : list datum)
  (d : datum) :
  separate_spanning (gather items) (max_x2_of items) = Ok (remaining0, spanning0) ->
  In d (remaining0 ++ spanning0) ->
  d = datum_of (d_item d) /\ In (d_item d) items.
Proof.
  intros E Hd. apply gather_datum.
  apply (Permutation_in _ (Permutation_sym (separate_spanning_perm _ _ _ _ E))).
  exact Hd.
Qed.

(** X11.  For two panels or more, of coordinates that convert to
    floats, once the spanning panels are separated from the remaining
    ones, the result is laid out as follows.  The remaining panels form a left column ([x_center] below
    the [split_x] found by the gap search) and a right column, the
    spanning panels a third list, each by ascending [y_top]; in either
    reading direction the result is a permutation of the three lists
    that keeps the column panels in column order (left then right, or
    right then left) and the spanning panels in their order; without
    spanning panels it is the two columns. *)
Theorem sort_panels_order (items : list item) (remaining0 spanning0 : list datum) :
  (2 <= length items)%nat ->
  in_float_range items ->
  separate_spanning (gather items) (max_x2_of items) = Ok (remaining0, spanning0) ->
  exists split_x left_column right_column spanning,
    split_x_of (map d_x_center (sorted_by flt d_x_center remaining0))
      = Ok split_x /\
    Permutation (map d_item remaining0) (left_column ++ right_column) /\
    Permutation (map d_item spanning0) spanning /\
    (forall it, In it left_column -> flt (x_center it) split_x = true) /\
    (forall it, In it right_column -> fge (x_center it) split_x = true) /\
    Sorted (key_le item_y) left_column /\
    Sorted (key_le item_y) right_column /\
    Sorted (key_le item_y) spanning /\
    forall rtl_order, exists merged,
      sort_panels_by_column_then_row items rtl_order = Ok merged /\
      Permutation merged ((left_column ++ right_column) ++ spanning) /\
      subseq (if rtl_order then right_column ++ left_column
              else left_column ++ right_column) merged /\
      subseq spanning merged /\
      (spanning = [] ->
       merged = if rtl_order then right_column ++ left_column
                else left_column ++ right_column).
Proof.
  intros Hlen _ E.
  destruct (sort_panels_structure items _ _ Hlen E) as [split_x [Hsx Hsort]].
  pose proof (fun d => separate_spanning_in items remaining0 spanning0 d E)
    as Hdatum.
  set (remaining := sorted_by flt d_x_center remaining0) in *.
  assert (Hrem : Permutation remaining0 remaining) by apply sorted_by_perm.
  assert (Hin : forall (p : datum -> bool) d,
            In d (sorted_by Z.ltb d_y_top (filter p remaining)) ->
            p d = true /\ d = datum_of (d_item d)).
  { intros p d Hd.
    apply (Permutation_in _ (Permutation_sym (sorted_by_perm Z.ltb d_y_top _))) in Hd.
    apply filter_In in Hd. destruct Hd as [Hd Hp]. split; [exact Hp|].
    apply (Permutation_in _ (Permutation_sym Hrem)) in Hd.
    apply Hdatum. apply in_or_app. now left. }
  assert (Hsp : forall d, In d (sorted_by Z.ltb d_y_top spanning0) ->
            d = datum_of (d_item d)).
  { intros d Hd.
    apply (Permutation_in _ (Permutation_sym (sorted_by_perm Z.ltb d_y_top _))) in Hd.
    apply Hdatum. apply in_or_app. now right. }
  assert (Hcols : Permutation (map d_item remaining0)
            (map d_item (sorted_by Z.ltb d_y_top (left_group_of remaining split_x)) ++
             map d_item (sorted_by Z.ltb d_y_top (right_group_of remaining split_x)))).
  { rewrite <- map_app. apply Permutation_map. rewrite Hrem.
    rewrite (non_spanning_perm remaining split_x false) at 1.
    now rewrite non_spanning_of_columns. }
  exists split_x,
    (map d_item (sorted_by Z.ltb d_y_top (left_group_of remaining split_x))),
    (map d_item (sorted_by Z.ltb d_y_top (right_group_of remaining split_x))),
    (map d_item (sorted_by Z.ltb d_y_top spanning0)).
  split; [exact Hsx|]. split; [exact Hcols|].
  split; [apply Permutation_map, sorted_by_perm|].
  split; [|split; [|split; [|split; [|split]]]].
  - intros it Hit. apply in_map_iff in Hit. destruct Hit as [d [<- Hd]].
    apply Hin in Hd. destruct Hd as [Hp Hd]. unfold x_center. now rewrite <- Hd.
  - intros it Hit. apply in_map_iff in Hit. destruct Hit as [d [<- Hd]].
    apply Hin in Hd. destruct Hd as [Hp Hd]. unfold x_center. now rewrite <- Hd.
  - apply sorted_map_item; [|apply sorted_by_sorted].
    intros d Hd. apply Hin in Hd. destruct Hd as [_ ->]. reflexivity.
  - apply sorted_map_item; [|apply sorted_by_sorted].
    intros d Hd. apply Hin in Hd. destruct Hd as [_ ->]. reflexivity.
  - apply sorted_map_item; [|apply sorted_by_sorted].
    intros d Hd. apply Hsp in Hd. rewrite Hd. reflexivity.
  - intros rtl_order. eexists. split; [apply Hsort|].
    split; [|rewrite non_spanning_of_columns; split; [|split]].
    + rewrite <- merge_by_y_top_perm. apply Permutation_app; [|reflexivity].
      rewrite <- Hcols. apply Permutation_map.
      rewrite <- non_spanning_perm. now symmetry.
    + destruct rtl_order; rewrite <- map_app; apply merge_by_y_top_subseq_l.
    + apply merge_by_y_top_subseq_r.
    + intros Hnil. apply map_eq_nil in Hnil. rewrite Hnil.
      rewrite merge_by_y_top_nil_r. destruct rtl_order; now rewrite map_app.
Qed.

Lemma sorted_by_hd_min {A : Type} (key : A -> Z) (l : list A) (a : A) (t : list A) :
  sorted_by Z.ltb key l = a :: t ->
  forall b, In b l -> key a <= key b.
Proof.
  intros E b Hb.
  assert (Hs : Sorted (key_le key) (a :: t))
    by (rewrite <- E; apply sorted_by_sorted).
  assert (Hb' : In b (a :: t))
    by (rewrite <- E; apply (Permutation_in _ (sorted_by_perm Z.ltb key l) Hb)).
  destruct Hb' as [<-|Hb']; [lia|].
  apply Sorted_extends in Hs.
  - rewrite Forall_forall in Hs. exact (Hs b Hb').
  - intros x y z. unfold key_le. lia.
Qed.

(** X13.  For two panels or more, of coordinates that convert to
    floats, once the spanning panels are separated, a spanning panel
    that lies strictly above every other panel is the first of the
    result, in either reading direction. *)
Theorem sort_panels_top_spanning_first (items : list item) (rtl_order : bool)
  (remaining0 spanning0 : list datum) (s : item) :
  (2 <= length items)%nat ->
  in_float_range items ->
  separate_spanning (gather items) (max_x2_of items) = Ok (remaining0, spanning0) ->
  In (datum_of s) spanning0 ->
  (forall it, In it items -> it = s \/ item_y s < item_y it) ->
  exists rest, sort_panels_by_column_then_row items rtl_order = Ok (s :: rest).
Proof.
  intros Hlen _ E Hs Htop.
  destruct (sort_panels_structure items _ _ Hlen E) as [split_x [Hsx Hsort]].
  rewrite Hsort. clear Hsort.
  pose proof (fun d => separate_spanning_in items remaining0 spanning0 d E)
    as Hdatum.
  pose proof (separate_spanning_eq _ _ _ E) as Heq.
  assert (Hsplit : forall n, In n remaining0 ->
            is_spanning (max_x2_of items) n = false).
  { intros n Hn. destruct (length _ <? 2)%nat; injection Heq as -> ->;
      [contradiction|].
    apply filter_In in Hn. destruct Hn as [_ Hn]. now apply negb_true_iff in Hn. }
  assert (Hwide : is_spanning (max_x2_of items) (datum_of s) = true).
  { destruct (length _ <? 2)%nat; injection Heq as -> ->; [contradiction|].
    apply filter_In in Hs. now destruct Hs. }
  clear Heq.
  set (ns := non_spanning_of _).
  assert (Hns : forall n, In n ns -> item_y s < d_y_top n).
  { intros n Hn. unfold ns in Hn.
    apply (Permutation_in _ (Permutation_sym (non_spanning_perm _ _ _))) in Hn.
    apply (Permutation_in _ (Permutation_sym (sorted_by_perm flt d_x_center _))) in Hn.
    destruct (Hdatum n (in_or_app _ _ _ (or_introl Hn))) as [Hd Hit].
    destruct (Htop _ Hit) as [Heq|Hlt].
    - rewrite Heq in Hd. rewrite <- Hd in Hwide. rewrite (Hsplit n Hn) in Hwide.
      discriminate.
    - rewrite Hd. exact Hlt. }
  destruct (sorted_by Z.ltb d_y_top spanning0) as [|hd t] eqn:Esp.
  { apply (Permutation_in _ (sorted_by_perm Z.ltb d_y_top spanning0)) in Hs.
    rewrite Esp in Hs. contradiction. }
  assert (Hhd : In hd spanning0).
  { apply (Permutation_in _ (Permutation_sym (sorted_by_perm Z.ltb d_y_top spanning0))).
    rewrite Esp. now left. }
  destruct (Hdatum hd (in_or_app _ _ _ (or_intror Hhd))) as [Hd Hit].
  pose proof (sorted_by_hd_min d_y_top spanning0 hd t Esp _ Hs) as Hmin.
  assert (Hitem : d_item hd = s).
  { destruct (Htop _ Hit) as [Heq|Hlt]; [exact Heq|].
    rewrite Hd in Hmin. simpl in Hmin. lia. }
  destruct ns as [|n ns'].
  - rewrite merge_by_y_top_nil_l. simpl. rewrite Hitem. eauto.
  - rewrite merge_by_y_top_cons.
    replace (d_y_top hd <? d_y_top n) with true.
    + rewrite Hitem. eauto.
    + symmetry. apply Z.ltb_lt. rewrite Hd, Hitem. simpl.
      apply Hns. now left.
Qed.

End ReadingOrder.

(** *** The further properties on the sample pages *)

Lemma sort_panels_returns_witness :
  (2 <= length tie_page)%nat /\
  in_float_range tie_page /\
  separate_spanning (FO := QOps) (gather tie_page) (max_x2_of tie_page)
    = Ok ([datum_of right_small; datum_of lower_left; datum_of lower_right],
          [datum_of wide]) /\
  let x_centers :=
    map d_x_center
      (sorted_by flt d_x_center
         [datum_of (FO := QOps) right_small; datum_of lower_left;
          datum_of lower_right]) in
  (2 <= length x_centers)%nat /\
  (split_idx_of (gaps_of x_centers) + 1 < length x_centers)%nat /\
  (exists a b,
     list_get x_centers (split_idx_of (gaps_of x_centers)) = Ok a /\
     list_get x_centers (split_idx_of (gaps_of x_centers) + 1) = Ok b) /\
  exists merged,
    sort_panels_by_column_then_row (FO := QOps) tie_page true = Ok merged.
Proof.
  assert (E : separate_spanning (FO := QOps) (gather tie_page) (max_x2_of tie_page)
              = Ok ([datum_of right_small; datum_of lower_left; datum_of lower_right],
                    [datum_of wide]))
    by (vm_compute; reflexivity).
  assert (Hrange : in_float_range tie_page).
  { intros it Hit. simpl in Hit.
    destruct Hit as [<-|[<-|[<-|[<-|[]]]]]; split; reflexivity. }
  split; [simpl; lia|]. split; [exact Hrange|]. split; [exact E|].
  refine (sort_panels_returns (FO := QOps) tie_page true _ _ _ Hrange E). simpl; lia.
Defined.

Lemma sort_panels_returns_on_tuples_witness :
  (2 <= length tie_page)%nat /\
  in_float_range tie_page /\
  (forall it, In it tie_page -> item_is_array it = false) /\
  exists merged,
    sort_panels_by_column_then_row (FO := QOps) tie_page false = Ok merged.
Proof.
  assert (Ht : forall it, In it tie_page -> item_is_array it = false).
  { intros it Hit. simpl in Hit.
    destruct Hit as [<-|[<-|[<-|[<-|[]]]]]; reflexivity. }
  assert (Hrange : in_float_range tie_page).
  { intros it Hit. simpl in Hit.
    destruct Hit as [<-|[<-|[<-|[<-|[]]]]]; split; reflexivity. }
  split; [simpl; lia|]. split; [exact Hrange|]. split; [exact Ht|].
  apply (sort_panels_returns_on_tuples (FO := QOps) tie_page false);
    [simpl; lia | exact Hrange | exact Ht].
Defined.

Lemma split_idx_largest_gap_witness :
  (2 <= length tie_x_centers)%nat /\
  (split_idx_of (FO := QOps) (gaps_of tie_x_centers) + 1 < length tie_x_centers)%nat /\
  (forall j, (j + 1 < length tie_x_centers)%nat ->
     fle (FloatOps := QOps)
         (fsub (nth (j + 1) tie_x_centers (of_int 0)) (nth j tie_x_centers (of_int 0)))
         (fsub (nth (split_idx_of (gaps_of tie_x_centers) + 1) tie_x_centers (of_int 0))
               (nth (split_idx_of (gaps_of tie_x_centers)) tie_x_centers (of_int 0)))
     = true) /\
  (forall j, (j < split_idx_of (FO := QOps) (gaps_of tie_x_centers))%nat ->
     flt (FO := QOps)
         (fsub (nth (j + 1) tie_x_centers (of_int 0)) (nth j tie_x_centers (of_int 0)))
         (fsub (nth (split_idx_of (gaps_of tie_x_centers) + 1) tie_x_centers (of_int 0))
               (nth (split_idx_of (gaps_of tie_x_centers)) tie_x_centers (of_int 0)))
     = true).
Proof.
  split; [simpl; lia|].
  apply (split_idx_largest_gap (FO := QOps) tie_x_centers). simpl; lia.
Defined.

Lemma sort_panels_order_witness :
  (2 <= length tie_page)%nat /\
  in_float_range tie_page /\
  separate_spanning (FO := QOps) (gather tie_page) (max_x2_of tie_page)
    = Ok ([datum_of right_small; datum_of lower_left; datum_of lower_right],
          [datum_of wide]) /\
  exists split_x left_column right_column spanning,
    split_x_of (FO := QOps)
      (map d_x_center
         (sorted_by flt d_x_center
            [datum_of right_small; datum_of lower_left; datum_of lower_right]))
      = Ok split_x /\
    Permutation
      (map d_item
         [datum_of (FO := QOps) right_small; datum_of lower_left;
          datum_of lower_right])
      (left_column ++ right_column) /\
    Permutation (map d_item [datum_of (FO := QOps) wide]) spanning /\
    (forall it, In it left_column -> flt (FO := QOps) (x_center it) split_x = true) /\
    (forall it, In it right_column -> fge (FO := QOps) (x_center it) split_x = true) /\
    Sorted (key_le item_y) left_column /\
    Sorted (key_le item_y) right_column /\
    Sorted (key_le item_y) spanning /\
    forall rtl_order, exists merged,
      sort_panels_by_column_then_row (FO := QOps) tie_page rtl_order = Ok merged /\
      Permutation merged ((left_column ++ right_column) ++ spanning) /\
      subseq (if rtl_order then right_column ++ left_column
              else left_column ++ right_column) merged /\
      subseq spanning merged /\
      (spanning = [] ->
       merged = if rtl_order then right_column ++ left_column
                else left_column ++ right_column).
Proof.
  assert (E : separate_spanning (FO := QOps) (gather tie_page) (max_x2_of tie_page)
              = Ok ([datum_of right_small; datum_of lower_left; datum_of lower_right],
                    [datum_of wide]))
    by (vm_compute; reflexivity).
  assert (Hrange : in_float_range tie_page).
  { intros it Hit. simpl in Hit.
    destruct Hit as [<-|[<-|[<-|[<-|[]]]]]; split; reflexivity. }
  split; [simpl; lia|]. split; [exact Hrange|]. split; [exact E|].
  refine (sort_panels_order (FO := QOps) tie_page _ _ _ Hrange E). simpl; lia.
Defined.

Lemma merge_by_y_top_sorted_witness :
  (forall d, In d ([datum_of (FO := QOps) right_small; datum_of lower_right]
                   ++ [datum_of wide]) ->
     d_y_top d = item_y (d_item d)) /\
  Sorted (key_le d_y_top) [datum_of (FO := QOps) right_small; datum_of lower_right] /\
  Sorted (key_le d_y_top) [datum_of (FO := QOps) wide] /\
  Sorted (key_le item_y)
    (merge_by_y_top (FO := QOps)
       [datum_of right_small; datum_of lower_right] [datum_of wide]).
Proof.
  assert (Hy : forall d, In d ([datum_of (FO := QOps) right_small;
                                datum_of lower_right] ++ [datum_of wide]) ->
                 d_y_top d = item_y (d_item d)) by by_cases_in.
  assert (H1 : Sorted (key_le d_y_top)
                 [datum_of (FO := QOps) right_small; datum_of lower_right])
    by (repeat constructor; unfold key_le; simpl; lia).
  assert (H2 : Sorted (key_le d_y_top) [datum_of (FO := QOps) wide])
    by (repeat constructor).
  split; [exact Hy|]. split; [exact H1|]. split; [exact H2|].
  apply (merge_by_y_top_sorted (FO := QOps)
           [datum_of right_small; datum_of lower_right] [datum_of wide] Hy H1 H2).
Defined.

Lemma sort_panels_top_spanning_first_witness :
  (2 <= length headline_page)%nat /\
  in_float_range headline_page /\
  separate_spanning (FO := QOps) (gather headline_page) (max_x2_of headline_page)
    = Ok ([datum_of below_left; datum_of below_right], [datum_of headline]) /\
  In (datum_of (FO := QOps) headline) [datum_of headline] /\
  (forall it, In it headline_page -> it = headline \/ item_y headline < item_y it) /\
  exists rest,
    sort_panels_by_column_then_row (FO := QOps) headline_page true
    = Ok (headline :: rest).
Proof.
  assert (E : separate_spanning (FO := QOps) (gather headline_page)
                (max_x2_of headline_page)
              = Ok ([datum_of below_left; datum_of below_right], [datum_of headline]))
    by (vm_compute; reflexivity).
  assert (Hin : In (datum_of (FO := QOps) headline) [datum_of headline])
    by (left; reflexivity).
  assert (Htop : forall it, In it headline_page ->
                   it = headline \/ item_y headline < item_y it).
  { intros it Hit. simpl in Hit.
    destruct Hit as [<-|[<-|[<-|[]]]];
      [right; reflexivity | left; reflexivity | right; reflexivity]. }
  assert (Hrange : in_float_range headline_page).
  { intros it Hit. simpl in Hit.
    destruct Hit as [<-|[<-|[<-|[]]]]; split; reflexivity. }
  split; [simpl; lia|]. split; [exact Hrange|]. split; [exact E|].
  split; [exact Hin|]. split; [exact Htop|].
  refine (sort_panels_top_spanning_first (FO := QOps) headline_page true _ _
            headline _ Hrange E Hin Htop).
  simpl; lia.
Defined.

(** The headline page in both directions. *)
Example sort_panels_headline_page :
  sort_panels_by_column_then_row (FO := QOps) headline_page false =
    Ok [headline; below_left; below_right] /\
  sort_panels_by_column_then_row (FO := QOps) headline_page true =
    Ok [headline; below_right; below_left].
Proof. split; vm_compute; reflexivity. Qed.

(** ** The sample inputs in binary64

    The runs above on the rationals, repeated in the arithmetic of
    Python.  On integer coordinates that binary64 holds exactly the
    layout computes the same order, the centres and the gaps being
    exact; the border scores and the depth of the search zone are
    rounded, which shows in the last three examples. *)

Example find_best_border_line_b64 :
  _find_best_border_line (FO := B64Ops) ring_mask 1 (range 2 (-1) (-1)) = Ok 1 /\
  _find_best_border_line (FO := B64Ops) blank_mask 1 (range 6 8 1) = Ok 7 /\
  _find_best_border_line (FO := B64Ops) solid_mask 0 (range 2 (-1) (-1)) = Ok 0 /\
  _find_best_border_line (FO := B64Ops) blank_mask 1 (range 3 3 1) = Ok 3.
Proof. repeat split; vm_compute; reflexivity. Qed.

Example sort_panels_b64 :
  sort_panels_by_column_then_row (FO := B64Ops) [top_left] false
    = Raise IndexError /\
  sort_panels_by_column_then_row (FO := B64Ops) quadrants true
    = Ok [top_right; bottom_right; top_left; bottom_left] /\
  sort_panels_by_column_then_row (FO := B64Ops) tie_page true
    = sort_panels_by_column_then_row (FO := QOps) tie_page true /\
  sort_panels_by_column_then_row (FO := B64Ops) tie_page false
    = sort_panels_by_column_then_row (FO := QOps) tie_page false /\
  sort_panels_by_column_then_row (FO := B64Ops) headline_page true
    = Ok [headline; below_right; below_left] /\
  sort_panels_by_column_then_row (FO := B64Ops) contour_page false
    = Raise ValueError.
Proof. repeat split; vm_compute; reflexivity. Qed.

(** Contours without a spanning panel are sorted: no two arrays are
    compared. *)
Example sort_panels_contour_quadrants :
  sort_panels_by_column_then_row (FO := B64Ops) contour_quadrants true
    = Ok [mk_contour 51 120 0 100 100; mk_contour 53 120 120 100 100;
          mk_contour 50 0 0 100 100; mk_contour 52 0 120 100 100] /\
  sort_panels_by_column_then_row (FO := QOps) contour_quadrants true
    = Ok [mk_contour 51 120 0 100 100; mk_contour 53 120 120 100 100;
          mk_contour 50 0 0 100 100; mk_contour 52 0 120 100 100].
Proof. split; vm_compute; reflexivity. Qed.

(** The spanning test at the threshold: 60 of 100 pixels.  The product
    [100 * 0.6] is rounded to 60, and the panel is spanning in both
    arithmetics. *)
Example is_spanning_at_threshold :
  is_spanning (FO := B64Ops) 100 (datum_of wide) = true /\
  is_spanning (FO := QOps) 100 (datum_of wide) = true.
Proof. split; vm_compute; reflexivity. Qed.

(** The near tie: rows 3 and 2 both score 42/5, and the later row 2
    wins on the rationals; rounded, [7 * 1.2] is above [6 * 1.4] and
    row 3 is kept. *)
Example find_best_border_line_near_tie :
  _find_best_border_line (FO := QOps) near_tie_mask 1 (range 4 (-1) (-1)) = Ok 2 /\
  _find_best_border_line (FO := B64Ops) near_tie_mask 1 (range 4 (-1) (-1)) = Ok 3 /\
  flt (FO := B64Ops) (score (range 4 (-1) (-1)) 6 2) (score (range 4 (-1) (-1)) 7 3)
    = true.
Proof. repeat split; vm_compute; reflexivity. Qed.

(** The depth of the search zone [int(h * search_zone_ratio)] for a
    height of 100 and a ratio of 0.29: 29 on the rationals, 28 in
    binary64, where [100 * 0.29] is rounded below 29. *)
Example search_zone_depth :
  ftrunc (FloatOps := QOps) (fmul (of_int 100) (fdiv (of_int 29) (of_int 100))) = 29 /\
  ftrunc (FloatOps := B64Ops) (fmul (of_int 100) (fdiv (of_int 29) (of_int 100))) = 28 /\
  ftrunc (FloatOps := B64Ops) (fmul (of_int 40) (fdiv (of_int 1) (of_int 4))) = 10.
Proof. repeat split; vm_compute; reflexivity. Qed.
